(** * Zotero RDF exporter of biblioruler: a shallow embedding

    The development follows [src/biblioruler/exporters/zotero_rdf.py]:
    the Python string primitives the exporter relies on, the [escape] and
    [write] helpers, the type tables, and the [Exporter] methods
    [output_file], [output_author], [output_paper], [output_collection] and
    [export], written in a small state-and-exception monad over the file
    system, the log and the primary output stream. *)

From Stdlib Require Import Ascii String.
From stdpp Require Import base option list strings gmap fin_maps.

(** Concatenation of strings computes under [simpl]. *)
#[global] Arguments String.append !s1 s2 : simpl nomatch.

(** * Python strings *)

Module PyStr.

(** The characters that cannot be written inside a literal. *)
Definition nl : string := String "010"%char EmptyString.
Definition dq : string := String "034"%char EmptyString.

(** [s * n] for a string [s]. *)
Fixpoint repeat_str (s : string) (n : nat) : string :=
  match n with
  | O => EmptyString
  | S k => s +:+ repeat_str s k
  end.

(** [str.replace(old, new)]: the occurrences of [old] are found from left to
    right and do not overlap.  [skip] counts the characters of a match that
    remain to be dropped. *)
Fixpoint replace_from (skip : nat) (old new s : string) : string :=
  match s with
  | EmptyString => EmptyString
  | String c s' =>
      match skip with
      | S k => replace_from k old new s'
      | O =>
          if String.prefix old s
          then new +:+ replace_from (String.length old - 1) old new s'
          else String c (replace_from 0 old new s')
      end
  end.

(** With an empty [old], Python puts [new] before every character and at
    the end. *)
Fixpoint intersperse (new s : string) : string :=
  match s with
  | EmptyString => new
  | String c s' => new +:+ String c (intersperse new s')
  end.

Definition replace (old new s : string) : string :=
  match old with
  | EmptyString => intersperse new s
  | String _ _ => replace_from 0 old new s
  end.

(** [str.format] restricted to what the exporter's templates use: every
    replacement field [{...}] takes the next positional argument; the
    arguments arrive already rendered ([str(x)], or the rendering the
    field's format specification asks for).  A field with no argument
    left (an [IndexError] in Python) does not occur in the exporter: it
    renders as nothing here. *)
Fixpoint format_from (infield : bool) (template : string) (objects : list string) : string :=
  match template with
  | EmptyString => EmptyString
  | String c t =>
      if infield then
        if Ascii.eqb c "}" then format_from false t objects
        else format_from true t objects
      else if Ascii.eqb c "{" then
        match objects with
        | o :: rest => o +:+ format_from true t rest
        | [] => format_from true t []
        end
      else String c (format_from false t objects)
  end.

Definition format (template : string) (objects : list string) : string :=
  format_from false template objects.

(** [template % args] for templates whose only conversions are [%s]. *)
Fixpoint percent (template : string) (args : list string) : string :=
  match template with
  | EmptyString => EmptyString
  | String c t =>
      if Ascii.eqb c "%" then
        match t, args with
        | String "s" t', a :: rest => a +:+ percent t' rest
        | _, _ => String c (percent t args)
        end
      else String c (percent t args)
  end.

(** [str(x)] for a value that is a string or [None]. *)
Definition str (x : option string) : string :=
  match x with
  | Some s => s
  | None => "None"
  end.

(** Truth value of a string or [None]. *)
Definition truthy (x : option string) : bool :=
  match x with
  | Some (String _ _) => true
  | _ => false
  end.

(** [s in t]. *)
Fixpoint contains (t s : string) : bool :=
  String.prefix s t ||
  match t with
  | EmptyString => false
  | String _ t' => contains t' s
  end.

End PyStr.

(** * [xml.sax.saxutils] *)

Module Saxutils.
Import PyStr.

(** [escape(data)] with the default, empty, [entities]. *)
Definition escape (data : string) : string :=
  let data := replace "&" "&amp;" data in
  let data := replace ">" "&gt;" data in
  let data := replace "<" "&lt;" data in
  data.

(** [unescape(data)] with the default, empty, [entities]; the ampersand
    comes last. *)
Definition unescape (data : string) : string :=
  let data := replace "&lt;" "<" data in
  let data := replace "&gt;" ">" data in
  replace "&amp;" "&" data.

End Saxutils.

(** * The helpers of the exporter *)

(** [escape]: [None] passes through. *)
Definition escape (string : option String.string) : option String.string :=
  match string with
  | None => None
  | Some s => Some (Saxutils.escape s)
  end.

(** [write(out, _indent, string, *objects, condition=True)], on the content
    of the stream [out]: the template is formatted only when there are
    objects. *)
Definition write (out : string) (_indent : nat) (string : String.string)
    (objects : list String.string) (condition : bool) : String.string :=
  if condition then
    let out := out +:+ PyStr.repeat_str "  " _indent in
    match objects with
    | [] => out +:+ string
    | _ :: _ => out +:+ PyStr.format string objects
    end
  else out.

(** Bibliographic types. *)
Definition BIBTYPE : gmap string string := ∅.

(** Zotero type mapping from CSL. *)
Definition ZTYPE : gmap string string :=
  list_to_map
    [ ("paper-conference", "conferencePaper");
      ("article-journal", "journalArticle");
      ("report", "report");
      ("book", "book");
      ("chapter", "bookSection");
      ("journal", "journal");
      ("patent", "patent");
      ("webpage", "webpage");
      ("thesis", "thesis");
      ("entry", "document");
      ("bill", "hearing") ].

(** [RE_FILECHARS.sub(repl, s)]: the class holds the slash, the colon, the
    hyphen and the two quotes; every such character becomes [repl]. *)
Definition is_filechar (c : ascii) : bool :=
  Ascii.eqb c "/" || Ascii.eqb c ":" || Ascii.eqb c "-"
  || Ascii.eqb c "034" || Ascii.eqb c "039".

Fixpoint RE_FILECHARS_sub (repl s : string) : string :=
  match s with
  | EmptyString => EmptyString
  | String c s' =>
      (if is_filechar c then repl else String c EmptyString)
      +:+ RE_FILECHARS_sub repl s'
  end.

(** * [os.path] on POSIX *)

Module op.

Definition startswith_sep (p : string) : bool :=
  match p with
  | String c _ => Ascii.eqb c "/"
  | EmptyString => false
  end.

Fixpoint endswith_sep (p : string) : bool :=
  match p with
  | EmptyString => false
  | String c EmptyString => Ascii.eqb c "/"
  | String _ p' => endswith_sep p'
  end.

(** [op.join(a, b)] *)
Definition join (a b : string) : string :=
  if startswith_sep b then b
  else
    match a with
    | EmptyString => b
    | String _ _ => if endswith_sep a then a +:+ b else a +:+ "/" +:+ b
    end.

(** [op.basename(p)]: what follows the last separator. *)
Fixpoint basename (p : string) : string :=
  match p with
  | EmptyString => EmptyString
  | String _ p' => if PyStr.contains p "/" then basename p' else p
  end.

End op.

(** * Exceptions, log records and the world the exporter runs in *)

(** The exceptions that reach the exporter, all instances of [Exception].
    [IOError] stands for [OSError] and its subclasses, named by [cls]. *)
Inductive Exn : Type :=
| PdfReadError (msg : string)
| IOError (cls msg : string)
| KeyError (key : string)
| TypeError (msg : string)
| OtherException (cls msg : string).

(** [isinstance(e, PyPDF2.utils.PdfReadError) or isinstance(e, IOError)] *)
Definition is_recoverable (e : Exn) : bool :=
  match e with
  | PdfReadError _ | IOError _ _ => true
  | _ => false
  end.

Inductive Level : Type := DEBUG | ERROR.

(** An argument of a logging call, kept as the object passed. *)
Inductive LogArg : Type :=
| ArgStr (s : string)
| ArgType (e : Exn)
| ArgExn (e : Exn).

Record LogRecord : Type := mkLogRecord {
  levelname : Level;
  msg : string;
  args : list LogArg
}.

(** The state the exporter acts on: the regular files (path to content;
    directories are not tracked), the records passed to [logging], the calls
    of [embed_annotations] made so far (identifier of the file, destination),
    and the content written to the primary output stream [f]. *)
Record World : Type := mkWorld {
  fs : gmap string string;
  log : list LogRecord;
  embedded : list (string * string);
  out : string
}.

Definition set_fs (x : gmap string string) (w : World) : World :=
  mkWorld x (log w) (embedded w) (out w).
Definition set_log (x : list LogRecord) (w : World) : World :=
  mkWorld (fs w) x (embedded w) (out w).
Definition set_embedded (x : list (string * string)) (w : World) : World :=
  mkWorld (fs w) (log w) x (out w).
Definition set_out (x : string) (w : World) : World :=
  mkWorld (fs w) (log w) (embedded w) x.

(** ** The monad: state that survives an exception *)

Inductive Result (A : Type) : Type :=
| Ok (a : A)
| Raise (e : Exn).
Arguments Ok {A} a.
Arguments Raise {A} e.

Definition M (A : Type) : Type := World -> World * Result A.

Definition ret {A} (a : A) : M A := fun w => (w, Ok a).

Definition bind {A B} (m : M A) (k : A -> M B) : M B :=
  fun w =>
    match m w with
    | (w', Ok a) => k a w'
    | (w', Raise e) => (w', Raise e)
    end.

Definition raise {A} (e : Exn) : M A := fun w => (w, Raise e).

(** [try: m except Exception as e: handler e] *)
Definition try_except {A} (m : M A) (handler : Exn -> M A) : M A :=
  fun w =>
    match m w with
    | (w', Ok a) => (w', Ok a)
    | (w', Raise e) => handler e w'
    end.

Declare Scope py_scope.
Delimit Scope py_scope with py.
Notation "x <- m ;; k" := (bind m (fun x => k))
  (at level 100, m at next level, right associativity) : py_scope.
Notation "m ;; k" := (bind m (fun _ => k))
  (at level 100, right associativity) : py_scope.
Open Scope py_scope.

(** [for x in l: body x] *)
Fixpoint for_ {A} (l : list A) (body : A -> M unit) : M unit :=
  match l with
  | [] => ret tt
  | x :: rest => body x ;; for_ rest body
  end.

(** ** Primitive actions *)

(** [write(f, ...)] on the primary output stream. *)
Definition f_write (_indent : nat) (string : String.string)
    (objects : list String.string) (condition : bool) : M unit :=
  fun w => (set_out (write (out w) _indent string objects condition) w, Ok tt).

(** [f.write(s)] *)
Definition f_write_raw (s : string) : M unit :=
  fun w => (set_out (out w +:+ s) w, Ok tt).

Definition logging_debug (msg : string) (args : list LogArg) : M unit :=
  fun w => (set_log (log w ++ [mkLogRecord DEBUG msg args]) w, Ok tt).

Definition logging_error (msg : string) (args : list LogArg) : M unit :=
  fun w => (set_log (log w ++ [mkLogRecord ERROR msg args]) w, Ok tt).

(** [op.exists(path)] *)
Definition op_exists (path : string) : M bool :=
  fun w => (w, Ok (bool_decide (is_Some (fs w !! path)))).

(** [os.stat(path).st_size] *)
Definition os_stat_st_size (path : string) : M nat :=
  fun w =>
    match fs w !! path with
    | Some content => (w, Ok (String.length content))
    | None => (w, Raise (IOError "FileNotFoundError" path))
    end.

(** [os.remove(path)] *)
Definition os_remove (path : string) : M unit :=
  fun w =>
    match fs w !! path with
    | Some _ => (set_fs (delete path (fs w)) w, Ok tt)
    | None => (w, Raise (IOError "FileNotFoundError" path))
    end.

(** [os.makedirs(path, exist_ok=True)]: the regular files are untouched. *)
Definition os_makedirs (path : string) : M unit := ret tt.

(** * The object model the exporter reads

    The classes come from the manager layer; the exporter reads the
    attributes and calls the methods listed here. *)

Module Author.
Record t : Type := mk {
  firstname : option string;
  surname : option string
}.
End Author.

Module Note.
Record t : Type := mk {
  uuid : string;
  title : option string;
  html : string
}.
End Note.

Module File.
(** [exists()] and [has_externalannotations()] read the file system;
    [embed_annotations(path)] acts on it and may raise. *)
Record t : Type := mk {
  uuid : string;
  path : string;
  title : option string;
  mimetype : option string;
  exists_ : gmap string string -> bool;
  has_externalannotations : gmap string string -> bool;
  embed_annotations :
    string -> gmap string string -> gmap string string * option Exn
}.
End File.

Module Publication.
(** [abstract] is [None] when the object has no such attribute;
    [date] is what the [date()] accessor returns; [creationdate] is the
    timestamp as the field [{:%Y-%m-%d %H:%M:%S}] renders it. *)
#[local] Unset Elimination Schemes.
Inductive t : Type := mk {
  uuid : string;
  type : string;
  title : option string;
  abstract : option (option string);
  volume : option string;
  number : option string;
  doi : option string;
  pages : option string;
  keywords : list string;
  read : bool;
  container : option t;
  date : string;
  creationdate : option string;
  authors : list Author.t;
  notes : list Note.t;
  files : list File.t
}.

Definition set_files (x : list File.t) (p : t) : t :=
  mk (uuid p) (type p) (title p) (abstract p) (volume p) (number p) (doi p)
     (pages p) (keywords p) (read p) (container p) (date p)
     (creationdate p) (authors p) (notes p) x.
End Publication.

Module Collection.
#[local] Unset Elimination Schemes.
Inductive t : Type := mk {
  uuid : string;
  name : option string;
  children : list t;
  publications : list Publication.t
}.
End Collection.

(** * The exporter *)

Record Exporter : Type := mkExporter {
  embed_container : bool;
  annotate : bool;
  path : option string;
  overwrite : bool
}.

(** [Exporter.__init__] *)
Definition Exporter_init : Exporter :=
  {| embed_container := true; annotate := false; path := None;
     overwrite := false |}.

Definition set_path (x : option string) (self : Exporter) : Exporter :=
  mkExporter (embed_container self) (annotate self) x (overwrite self).
Definition set_overwrite (x : bool) (self : Exporter) : Exporter :=
  mkExporter (embed_container self) (annotate self) (path self) x.

(** [self.path] where a string is required: [None] makes [op.join] raise. *)
Definition self_path (self : Exporter) : M string :=
  match path self with
  | Some p => ret p
  | None => raise (TypeError "expected str, bytes or os.PathLike object, not NoneType")
  end.

(** [f.exists()], [f.has_externalannotations()], [f.embed_annotations(path)] *)
Definition file_exists (f : File.t) : M bool :=
  fun w => (w, Ok (File.exists_ f (fs w))).

Definition file_has_externalannotations (f : File.t) : M bool :=
  fun w => (w, Ok (File.has_externalannotations f (fs w))).

Definition file_embed_annotations (f : File.t) (path : string) : M unit :=
  fun w =>
    let '(fs', r) := File.embed_annotations f path (fs w) in
    let w' := set_embedded (embedded w ++ [(File.uuid f, path)]) (set_fs fs' w) in
    match r with
    | None => (w', Ok tt)
    | Some e => (w', Raise e)
    end.

Import PyStr.

(** [Exporter.output_file]: the stream [out] is the buffer of the caller;
    its new content comes back with the returned boolean. *)
Definition output_file (self : Exporter) (out : string) (f : File.t)
    (indent : nat) : M (string * bool) :=
  ex <- file_exists f ;;
  if negb ex then ret (out, false)
  else
    let out := write out indent
      ("<z:Attachment rdf:about=" +:+ dq +:+ "#{}" +:+ dq +:+ ">" +:+ nl)
      [File.uuid f] true in
    let out := write out (indent + 1)
      ("<z:itemType>attachment</z:itemType>" +:+ nl) [] true in
    let out := write out (indent + 1)
      ("<dc:title>{}</dc:title>" +:+ nl)
      [str (escape (File.title f))] (truthy (File.title f)) in
    let out := write out (indent + 1)
      ("<link:type>{}</link:type>" +:+ nl)
      [str (File.mimetype f)] (truthy (File.mimetype f)) in
    (* By default, path is original file path *)
    let path := File.path f in
    (* Convert if needed *)
    convert <- (if annotate self then file_has_externalannotations f
                else ret false) ;;
    path <-
      (if convert then
         let uuidpath := RE_FILECHARS_sub "_" (File.uuid f) in
         dir <- self_path self ;;
         let path := op.join dir (uuidpath +:+ "-" +:+ op.basename (File.path f)) in
         try_except
           (logging_debug "Writing annotated PDF [%s] from [%s]"
              [ArgStr path; ArgStr (File.path f)] ;;
            (* Write annotations *)
            present <- op_exists path ;;
            needed <- (if negb present then ret true
                       else size <- os_stat_st_size path ;;
                            ret (Nat.eqb size 0)) ;;
            (if needed then file_embed_annotations f path else ret tt) ;;
            ret path)
           (fun e =>
              (* First remove the file *)
              present <- op_exists path ;;
              (if present then os_remove path else ret tt) ;;
              (* Handle gracefully for some errors *)
              if is_recoverable e then
                logging_error "Error while annotating (%s): %s"
                  [ArgType e; ArgExn e] ;;
                ret (File.path f)
              else raise e)
       else ret path) ;;
    let out := write out (indent + 1)
      ("<rdf:resource rdf:resource=" +:+ dq +:+ "{}" +:+ dq +:+ "/>" +:+ nl)
      [str (escape (Some path))] true in
    let out := write out indent ("</z:Attachment>" +:+ nl) [] true in
    ret (out, true).

(** [Exporter.output_author] *)
Definition output_author (self : Exporter) (author : Author.t)
    (indent : nat) : M unit :=
  f_write indent ("<foaf:Person>" +:+ nl) [] true ;;
  f_write (indent + 1) ("<foaf:surname>{}</foaf:surname>" +:+ nl)
    [str (Author.surname author)] true ;;
  f_write (indent + 1) ("<foaf:givenname>{}</foaf:givenname>" +:+ nl)
    [str (Author.firstname author)] true ;;
  f_write indent ("</foaf:Person>" +:+ nl) [] true.

(** The loop over [paper.files] of [output_paper], with the buffer
    [appendout] and the list [attachments] it builds. *)
Fixpoint output_files (self : Exporter) (files : list File.t) (indent : nat)
    (appendout : string) (attachments : list string)
    : M (string * list string) :=
  match files with
  | [] => ret (appendout, attachments)
  | file :: rest =>
      r <- output_file self appendout file indent ;;
      let '(appendout, emitted) := r in
      output_files self rest indent appendout
        (if emitted then attachments ++ [File.uuid file] else attachments)
  end.

(** [ZTYPE[key]] *)
Definition ZTYPE_getitem (key : string) : M string :=
  match ZTYPE !! key with
  | Some z => ret z
  | None => raise (KeyError key)
  end.

(** [Exporter.output_paper].  The body of the method comes first, with
    [output_paper] standing for the method itself in the call on the
    container; the fixpoint below closes the recursion. *)
Definition output_paper_body
    (output_paper : Exporter -> Publication.t -> nat -> M unit)
    (self : Exporter) (paper : Publication.t) (indent : nat) : M unit :=
  let _indent := repeat_str "  " indent in
  let gtype := default "Article" (BIBTYPE !! Publication.type paper) in
  r <- output_files self (Publication.files paper) indent EmptyString [] ;;
  let '(appendout, attachments) := r in
  f_write indent
    ("<bib:{} rdf:about=" +:+ dq +:+ "#{}" +:+ dq +:+ ">" +:+ nl)
    [gtype; Publication.uuid paper] true ;;
  (match Publication.authors paper with
   | [] => ret tt
   | _ :: _ =>
       f_write (indent + 1) ("<bib:authors><rdf:Seq>" +:+ nl) [] true ;;
       for_ (Publication.authors paper) (fun author =>
         f_write (indent + 2) ("<rdf:li>" +:+ nl) [] true ;;
         output_author self author (indent + 3) ;;
         f_write (indent + 2) ("</rdf:li>" +:+ nl) [] true) ;;
       f_write (indent + 1) ("</rdf:Seq></bib:authors>" +:+ nl) [] true
   end) ;;
  ztype <- ZTYPE_getitem (Publication.type paper) ;;
  f_write_raw
    (percent ("%s  <z:itemType>%s</z:itemType>" +:+ nl) [_indent; ztype]) ;;
  f_write (indent + 1) ("<dc:title>{}</dc:title>" +:+ nl)
    [str (escape (Publication.title paper))] true ;;
  (match Publication.abstract paper with
   | Some abstract =>
       f_write (indent + 1) ("<dcterms:abstract>{}</dcterms:abstract>" +:+ nl)
         [str (escape abstract)] (truthy abstract)
   | None => ret tt
   end) ;;
  (if bool_decide (Publication.volume paper ≠ None) then
     f_write (indent + 1) ("<prism:volume>{}</prism:volume>" +:+ nl)
       [str (escape (Publication.volume paper))] true
   else ret tt) ;;
  (if bool_decide (Publication.volume paper ≠ None) then
     f_write (indent + 1) ("<prism:number>{}</prism:number>" +:+ nl)
       [str (escape (Publication.number paper))] true
   else ret tt) ;;
  (if bool_decide (Publication.doi paper ≠ None) then
     f_write (indent + 1) ("<dc:identifier>DOI {}</dc:identifier>" +:+ nl)
       [str (escape (Publication.doi paper))] true
   else ret tt) ;;
  (if bool_decide (Publication.pages paper ≠ None) then
     f_write (indent + 1) ("<bib:pages>{}</bib:pages>" +:+ nl)
       [str (escape (Publication.pages paper))] true
   else ret tt) ;;
  for_ attachments (fun attachment =>
    f_write (indent + 1)
      ("<link:link rdf:resource=" +:+ dq +:+ "#{}" +:+ dq +:+ "/>" +:+ nl)
      [str (escape (Some attachment))] true) ;;
  for_ (Publication.keywords paper) (fun keyword =>
    f_write (indent + 1) "<dc:subject>{}</dc:subject>"
      [str (escape (Some keyword))] true) ;;
  (if Publication.read paper then
     f_write (indent + 1) "<dc:subject>#read</dc:subject>" [] true
   else ret tt) ;;
  (match Publication.container paper with
   | Some container =>
       if embed_container self then
         f_write (indent + 1) ("<dcterms:isPartOf>" +:+ nl) [] true ;;
         output_paper self container (indent + 2) ;;
         f_write (indent + 1) ("</dcterms:isPartOf>" +:+ nl) [] true
       else
         f_write (indent + 1)
           ("<dcterms:isPartOf rdf:resource=" +:+ dq +:+ "{}" +:+ dq +:+ "/>" +:+ nl)
           [Publication.uuid container] true
   | None => ret tt
   end) ;;
  let date := Publication.date paper in
  f_write (indent + 1) ("<dc:date>{}</dc:date>" +:+ nl) [date]
    (bool_decide (0 < String.length date)) ;;
  f_write (indent + 1)
    ("<dcterms:dateSubmitted>{:%Y-%m-%d %H:%M:%S}</dcterms:dateSubmitted>" +:+ nl)
    [str (Publication.creationdate paper)]
    (bool_decide (Publication.creationdate paper ≠ None)) ;;
  for_ (Publication.notes paper) (fun note =>
    f_write (indent + 1)
      (" <dcterms:isReferencedBy rdf:resource=" +:+ dq +:+ "#{}" +:+ dq +:+ "/>" +:+ nl)
      [Note.uuid note] true) ;;
  f_write indent ("</bib:{}>" +:+ nl +:+ nl) [gtype] true ;;
  for_ (Publication.notes paper) (fun note =>
    f_write indent ("<bib:Memo rdf:about=" +:+ dq +:+ "#{}" +:+ dq +:+ ">")
      [Note.uuid note] true ;;
    f_write (indent + 1) (str (escape (Some (Note.html note)))) [] true ;;
    f_write indent "</bib:Memo>" [] true) ;;
  f_write_raw appendout.

Fixpoint output_paper (self : Exporter) (paper : Publication.t)
    (indent : nat) {struct paper} : M unit :=
  output_paper_body output_paper self paper indent.

(** [Exporter.output_collection] *)
Definition output_collection (self : Exporter) (collection : Collection.t)
    (indent : nat) : M unit :=
  f_write indent
    ("<z:Collection rdf:about=" +:+ dq +:+ "#{}" +:+ dq +:+ ">" +:+ nl)
    [Collection.uuid collection] true ;;
  f_write (indent + 1) ("<dc:title>{}</dc:title>" +:+ nl)
    [str (escape (Collection.name collection))] true ;;
  for_ (Collection.children collection) (fun c =>
    f_write (indent + 1)
      ("<dcterms:hasPart rdf:resource=" +:+ dq +:+ "#{}" +:+ dq +:+ "/>" +:+ nl)
      [Collection.uuid c] true) ;;
  for_ (Collection.publications collection) (fun p =>
    f_write (indent + 1)
      ("<dcterms:hasPart rdf:resource=" +:+ dq +:+ "#{}" +:+ dq +:+ "/>" +:+ nl)
      [Publication.uuid p] true) ;;
  f_write indent ("</z:Collection>" +:+ nl +:+ nl) [] true.

(** The envelope written by [export] before the publications. *)
Definition RDF_HEADER : string :=
  "<rdf:RDF" +:+ nl +:+
  "         xmlns:rdf=" +:+ dq +:+ "http://www.w3.org/1999/02/22-rdf-syntax-ns#" +:+ dq +:+ nl +:+
  "         xmlns:z=" +:+ dq +:+ "http://www.zotero.org/namespaces/export#" +:+ dq +:+ nl +:+
  "         xmlns:dcterms=" +:+ dq +:+ "http://purl.org/dc/terms/" +:+ dq +:+ nl +:+
  "         xmlns:bib=" +:+ dq +:+ "http://purl.org/net/biblio#" +:+ dq +:+ nl +:+
  "         xmlns:foaf=" +:+ dq +:+ "http://xmlns.com/foaf/0.1/" +:+ dq +:+ nl +:+
  "         xmlns:link=" +:+ dq +:+ "http://purl.org/rss/1.0/modules/link/" +:+ dq +:+ nl +:+
  "         xmlns:dc=" +:+ dq +:+ "http://purl.org/dc/elements/1.1/" +:+ dq +:+ nl +:+
  "         xmlns:vcard=" +:+ dq +:+ "http://nwalsh.com/rdf/vCard#" +:+ dq +:+ nl +:+
  "         xmlns:prism=" +:+ dq +:+ "http://prismstandard.org/namespaces/1.2/basic/" +:+ dq +:+ ">"
  +:+ nl +:+ nl.

(** [open(name, "wt")]: the file is created or truncated and the stream
    starts empty. *)
Definition open_wt (name : string) (w : World) : World :=
  set_out EmptyString (set_fs (<[name := EmptyString]> (fs w)) w).

(** Leaving the [with] block closes the stream: the file holds what was
    written. *)
Definition close (name : string) (w : World) : World :=
  set_fs (<[name := out w]> (fs w)) w.

(** [with open(name, "wt") as out: body], left normally or by an
    exception. *)
Definition with_open {A} (name : string) (body : M A) : M A :=
  fun w =>
    let '(w', r) := body (open_wt name w) in
    (close name w', r).

(** [Exporter.export]; [self.path] is assigned first. *)
Definition export (self : Exporter) (path : string)
    (publications : list Publication.t) (collections : list Collection.t)
    : M unit :=
  let self := set_path (Some path) self in
  (if annotate self then os_makedirs path else ret tt) ;;
  with_open (path +:+ ".rdf")
    (f_write_raw RDF_HEADER ;;
     for_ publications (fun p => output_paper self p 1) ;;
     for_ collections (fun c => output_collection self c 1) ;;
     f_write_raw ("</rdf:RDF>" +:+ nl)).

(** * Notions used by the statements *)

(** The text a per-character substitution produces. *)
Fixpoint concat_map (f : ascii -> string) (s : string) : string :=
  match s with
  | EmptyString => EmptyString
  | String c s' => f c +:+ concat_map f s'
  end.

(** What [Saxutils.escape] does to one character, and what is left of it
    after the first and the second replacement of [Saxutils.unescape]. *)
Definition esc_char (c : ascii) : string :=
  if Ascii.eqb c "&" then "&amp;"
  else if Ascii.eqb c ">" then "&gt;"
  else if Ascii.eqb c "<" then "&lt;"
  else String c EmptyString.

Definition esc1 (c : ascii) : string :=
  if Ascii.eqb c "&" then "&amp;"
  else if Ascii.eqb c ">" then "&gt;"
  else String c EmptyString.

Definition esc2 (c : ascii) : string :=
  if Ascii.eqb c "&" then "&amp;" else String c EmptyString.

#[local] Arguments esc_char : simpl never.
#[local] Arguments esc1 : simpl never.
#[local] Arguments esc2 : simpl never.

(** The concatenation of the texts of the elements of a list. *)
Fixpoint concat_text {A} (text : A -> string) (l : list A) : string :=
  match l with
  | [] => EmptyString
  | x :: rest => text x +:+ concat_text text rest
  end.

(** [m] always succeeds, appends [s] to the primary output and changes
    nothing else. *)
Definition emits (m : M unit) (s : string) : Prop :=
  forall w, m w = (set_out (out w +:+ s) w, Ok tt).

(** Whatever [m] does, the primary output only grows. *)
Definition extends {A} (m : M A) : Prop :=
  forall w, exists s, out (fst (m w)) = out w +:+ s.

(** Whatever [m] does, the primary output is left as it is. *)
Definition keeps_out {A} (m : M A) : Prop :=
  forall w, out (fst (m w)) = out w.

(** What [m] appends to the primary output begins with [s]. *)
Definition begins {A} (m : M A) (s : string) : Prop :=
  forall w, exists rest, out (fst (m w)) = out w +:+ s +:+ rest.

(** What [m] appends to the primary output holds [s]. *)
Definition includes {A} (m : M A) (s : string) : Prop :=
  forall w, exists pre post, out (fst (m w)) = out w +:+ pre +:+ s +:+ post.

(** When [m] ends normally, what it appended holds [s] followed by [t]
    later on. *)
Definition finishes (m : M unit) (s t : string) : Prop :=
  forall w w', m w = (w', Ok tt) ->
    exists pre mid post, out w' = out w +:+ pre +:+ s +:+ mid +:+ t +:+ post.




(** The destination of the annotated copy of [f], as [output_file]
    computes it. *)
Definition destination (dir : string) (f : File.t) : string :=
  op.join dir
    (RE_FILECHARS_sub "_" (File.uuid f) +:+ "-" +:+ op.basename (File.path f)).

(** The memo fragment [output_paper] writes for a note. *)
Definition memo_fragment (indent : nat) (note : Note.t) : string :=
  repeat_str "  " indent +:+ "<bib:Memo rdf:about=" +:+ dq +:+ "#"
    +:+ Note.uuid note +:+ dq +:+ ">"
  +:+ repeat_str "  " (indent + 1) +:+ Saxutils.escape (Note.html note)
  +:+ repeat_str "  " indent +:+ "</bib:Memo>".

(** ** Sample data *)

Definition empty_world : World := mkWorld ∅ [] [] EmptyString.

(** The publication of the end-to-end example. *)
Definition study : Publication.t :=
  Publication.mk "p1" "article-journal" (Some "A Study") (Some None)
    None None None None [] true None EmptyString None
    [Author.mk (Some "Jane") (Some "Doe")] [] [].

(** A volume without a number, and a note whose body holds markup. *)
Definition handbook : Publication.t :=
  Publication.mk "p2" "book" (Some "Handbook") None
    (Some "3") None None None [] false None "2020" None
    [] [Note.mk "n1" None "<p>A & B</p>"] [].

(** A publication whose type the schema table does not know. *)
Definition leaflet : Publication.t :=
  Publication.mk "p3" "pamphlet" (Some "Leaflet") None
    None None None None [] false None EmptyString None [] [] [].

(** An attachment with external annotations whose embedding writes some
    bytes to the destination and then fails with [failure], or succeeds
    when [failure] is [None]. *)
Definition annotated_pdf (failure : option Exn) : File.t :=
  File.mk "f:1" "/lib/a.pdf" (Some "A") (Some "application/pdf")
    (fun _ => true) (fun _ => true)
    (fun dest files => (<[dest := "%PDF"]> files, failure)).

(** An attachment whose file is missing. *)
Definition missing_pdf : File.t :=
  File.mk "f:2" "/lib/gone.pdf" None None
    (fun _ => false) (fun _ => false)
    (fun dest files => (files, None)).

(** A world where the annotated copy of [annotated_pdf] is already in the
    output directory. *)
Definition world_with_copy : World :=
  mkWorld {[ destination "out" (annotated_pdf None) := "%PDF annotated" ]}
    [] [] EmptyString.

(** An author whose names hold markup characters. *)
Definition doe_and_sons : Author.t :=
  Author.mk (Some "R&D") (Some "Doe <Sons>").

Definition annotating (overwrite : bool) : Exporter :=
  {| embed_container := true; annotate := true; path := Some "out";
     overwrite := overwrite |}.

(** * Notions used by the further properties *)

(** The file name of the annotated copy of [f]: the second argument of
    [op.join] in [output_file]. *)
Definition annotated_name (f : File.t) : string :=
  RE_FILECHARS_sub "_" (File.uuid f) +:+ "-" +:+ op.basename (File.path f).

(** The fragment [output_file] writes for [f] when it references [path]. *)
Definition attachment_fragment (indent : nat) (f : File.t) (path : string)
    : string :=
  repeat_str "  " indent +:+ "<z:Attachment rdf:about=" +:+ dq +:+ "#"
    +:+ File.uuid f +:+ dq +:+ ">" +:+ nl
  +:+ repeat_str "  " (indent + 1) +:+ "<z:itemType>attachment</z:itemType>"
    +:+ nl
  +:+ (if truthy (File.title f)
       then repeat_str "  " (indent + 1) +:+ "<dc:title>"
            +:+ str (escape (File.title f)) +:+ "</dc:title>" +:+ nl
       else EmptyString)
  +:+ (if truthy (File.mimetype f)
       then repeat_str "  " (indent + 1) +:+ "<link:type>"
            +:+ str (File.mimetype f) +:+ "</link:type>" +:+ nl
       else EmptyString)
  +:+ repeat_str "  " (indent + 1) +:+ "<rdf:resource rdf:resource=" +:+ dq
    +:+ Saxutils.escape path +:+ dq +:+ "/>" +:+ nl
  +:+ repeat_str "  " indent +:+ "</z:Attachment>" +:+ nl.

(** The link [output_paper] writes for a resolved attachment. *)
Definition link_line (indent : nat) (uuid : string) : string :=
  repeat_str "  " indent +:+ "<link:link rdf:resource=" +:+ dq +:+ "#"
    +:+ Saxutils.escape uuid +:+ dq +:+ "/>" +:+ nl.

(** The reference [output_collection] writes for a child or a member. *)
Definition part_line (indent : nat) (uuid : string) : string :=
  repeat_str "  " indent +:+ "<dcterms:hasPart rdf:resource=" +:+ dq +:+ "#"
    +:+ uuid +:+ dq +:+ "/>" +:+ nl.

(** The fragment of a collection, from its identifier, its name and the
    identifiers of its children and of its members. *)
Definition collection_fragment (indent : nat) (uuid : string)
    (name : option string) (children publications : list string) : string :=
  repeat_str "  " indent +:+ "<z:Collection rdf:about=" +:+ dq +:+ "#"
    +:+ uuid +:+ dq +:+ ">" +:+ nl
  +:+ repeat_str "  " (indent + 1) +:+ "<dc:title>" +:+ str (escape name)
    +:+ "</dc:title>" +:+ nl
  +:+ concat_text (part_line (indent + 1)) children
  +:+ concat_text (part_line (indent + 1)) publications
  +:+ repeat_str "  " indent +:+ "</z:Collection>" +:+ nl +:+ nl.

(** A publication with another container, abstract or number. *)
Definition set_container (x : option Publication.t) (p : Publication.t)
    : Publication.t :=
  Publication.mk (Publication.uuid p) (Publication.type p)
    (Publication.title p) (Publication.abstract p) (Publication.volume p)
    (Publication.number p) (Publication.doi p) (Publication.pages p)
    (Publication.keywords p) (Publication.read p) x (Publication.date p)
    (Publication.creationdate p) (Publication.authors p)
    (Publication.notes p) (Publication.files p).

Definition set_abstract (x : option (option string)) (p : Publication.t)
    : Publication.t :=
  Publication.mk (Publication.uuid p) (Publication.type p)
    (Publication.title p) x (Publication.volume p)
    (Publication.number p) (Publication.doi p) (Publication.pages p)
    (Publication.keywords p) (Publication.read p) (Publication.container p)
    (Publication.date p) (Publication.creationdate p) (Publication.authors p)
    (Publication.notes p) (Publication.files p).

Definition set_number (x : option string) (p : Publication.t)
    : Publication.t :=
  Publication.mk (Publication.uuid p) (Publication.type p)
    (Publication.title p) (Publication.abstract p) (Publication.volume p)
    x (Publication.doi p) (Publication.pages p)
    (Publication.keywords p) (Publication.read p) (Publication.container p)
    (Publication.date p) (Publication.creationdate p) (Publication.authors p)
    (Publication.notes p) (Publication.files p).

(** Whatever [m] does, only the primary output changes: the files, the log
    and the record of embedding calls are left as they are. *)
Definition only_out {A} (m : M A) : Prop :=
  forall w, exists s, fst (m w) = set_out s w.

(** The number of files a publication and its chain of containers hold. *)
Fixpoint count_files (p : Publication.t) : nat :=
  length (Publication.files p)
  + match Publication.container p with
    | Some c => count_files c
    | None => 0
    end.

(** Whatever [m] does, it adds at most [n] calls of [embed_annotations] to
    the record, and removes none. *)
Definition embeds_at_most {A} (n : nat) (m : M A) : Prop :=
  forall w, exists calls,
    embedded (fst (m w)) = embedded w ++ calls /\ length calls <= n.

(** When [m] ends normally, what it appended ends with [s]. *)
Definition ends (m : M unit) (s : string) : Prop :=
  forall w w', m w = (w', Ok tt) -> exists pre, out w' = out w +:+ pre +:+ s.

(** When [m] ends normally, what it appended holds a text that satisfies
    [P]. *)
Definition nests (m : M unit) (P : string -> Prop) : Prop :=
  forall w w', m w = (w', Ok tt) ->
    exists pre mid post, out w' = out w +:+ pre +:+ mid +:+ post /\ P mid.

(** A publication whose container has a type the schema table does not
    know. *)
Definition chapter_of_leaflet : Publication.t :=
  Publication.mk "p4" "chapter" (Some "Chapter") None
    None None None None [] false (Some leaflet) EmptyString None [] [] [].

(** A chapter of the handbook. *)
Definition chapter_of_handbook : Publication.t :=
  Publication.mk "p5" "chapter" (Some "Chapter") None
    None None None None [] false (Some handbook) EmptyString None [] [] [].

(** A collection with a child and a member. *)
Definition shelf : Collection.t :=
  Collection.mk "c1" (Some "Shelf & more")
    [Collection.mk "c2" None [] [handbook]] [study].

(** The files of a publication followed by those of its chain of
    containers, in the order [output_paper] reaches them. *)
Fixpoint all_files (p : Publication.t) : list File.t :=
  Publication.files p
  ++ match Publication.container p with
     | Some c => all_files c
     | None => []
     end.

(** The call of [embed_annotations] that [output_file] makes for [f]: the
    identifier of the file and the destination under [self.path]. *)
Definition embedding_call (self : Exporter) (f : File.t) : string * string :=
  (File.uuid f,
   match path self with
   | Some dir => destination dir f
   | None => EmptyString
   end).

(** Whatever [m] does, the calls it adds to the record are the calls of
    some of [files], each taken at most once and in order. *)
Definition embeds_from {A} (self : Exporter) (files : list File.t) (m : M A)
    : Prop :=
  forall w, exists l,
    sublist l files
    /\ embedded (fst (m w)) = embedded w ++ map (embedding_call self) l.

(** * The Zotero manager: [src/biblioruler/managers/zotero5.py]

    The parts of the manager that do not go through the database session:
    the regular expressions, [Paper.populate] and the URI handling of
    [Manager.get_publication_by_uri].  The base classes of the manager
    layer and the query are taken as parameters. *)

Module Zotero5.

(** [\d], on the characters of the model: the decimal digits. *)
Definition is_digit (c : ascii) : bool :=
  (Nat.leb 48 (nat_of_ascii c)) && (Nat.leb (nat_of_ascii c) 57).

(** [s.startswith(p)], returning what follows. *)
Fixpoint strip_prefix (p s : string) : option string :=
  match p, s with
  | EmptyString, _ => Some s
  | String a p', String b s' =>
      if Ascii.eqb a b then strip_prefix p' s' else None
  | String _ _, EmptyString => None
  end.

(** What is left after the digits [\d+] takes, greedily. *)
Fixpoint skip_digits (s : string) : string :=
  match s with
  | String c s' => if is_digit c then skip_digits s' else s
  | EmptyString => EmptyString
  end.

(** The group of any characters but newlines followed by the end anchor,
    matched against all of [s]: the group, when [s] holds no newline but
    possibly a last one. *)
Fixpoint match_to_end (s : string) : option string :=
  match s with
  | EmptyString => Some EmptyString
  | String c s' =>
      if Ascii.eqb c "010" then
        match s' with
        | EmptyString => Some EmptyString
        | String _ _ => None
        end
      else
        match match_to_end s' with
        | Some g => Some (String c g)
        | None => None
        end
  end.

(** [re_papers_uri.match(uri)]: the prefix [zotero://select/items/], one
    digit or more, an underscore, then group 1 up to the end. *)
Definition re_papers_uri_match (uri : string) : option string :=
  match strip_prefix "zotero://select/items/" uri with
  | Some (String d rest) =>
      if is_digit d then
        match skip_digits rest with
        | String "_" tail => match_to_end tail
        | _ => None
        end
      else None
  | _ => None
  end.

(** [int(s)] for a string of decimal digits. *)
Definition digit_value (c : ascii) : nat := nat_of_ascii c - 48.

Fixpoint int_from (acc : nat) (s : string) : nat :=
  match s with
  | EmptyString => acc
  | String c s' => int_from (10 * acc + digit_value c) s'
  end.

Definition int (s : string) : nat := int_from 0 s.

(** [n] digits at the head of [s]: the digits and what follows. *)
Fixpoint take_digits (n : nat) (s : string) : option (string * string) :=
  match n with
  | O => Some (EmptyString, s)
  | S k =>
      match s with
      | String c s' =>
          if is_digit c then
            match take_digits k s' with
            | Some (ds, rest) => Some (String c ds, rest)
            | None => None
            end
          else None
      | EmptyString => None
      end
  end.

(** [re.match(r"^(\d{4})-(\d{2})-(\d{2})", date)]: the three groups. *)
Definition re_date_match (date : string) : option (string * string * string) :=
  match take_digits 4 date with
  | Some (y, String "-" r1) =>
      match take_digits 2 r1 with
      | Some (m, String "-" r2) =>
          match take_digits 2 r2 with
          | Some (d, _) => Some (y, m, d)
          | None => None
          end
      | _ => None
      end
  | _ => None
  end.

(** The rows of the database an item is populated from. *)
Record ItemNote : Type := mkItemNote {
  itemID : nat;
  note_title : option string;
  note : string
}.

Record ItemCreator : Type := mkItemCreator {
  creatorID : nat;
  firstName : option string;
  lastName : option string
}.

(** [data] lists the pairs ([data.field.fieldName], [data.value.value]). *)
Record Item : Type := mkItem {
  key : string;
  data : list (string * string);
  notes : list ItemNote;
  creators : list ItemCreator;
  tags : list string;
  dateAdded : option string
}.

(** The attributes of a [Paper] that [populate] assigns. *)
Record Paper : Type := mkPaper {
  local_uuid : string;
  title : option string;
  uri : option string;
  paper_notes : list Note.t;
  authors : list Author.t;
  paper_tags : gset string;
  year : option nat;
  month : option nat;
  day : option nat;
  creationdate : option string;
  surrogate : bool
}.

(** A dict built by a comprehension over [l]: the last pair of a key
    wins. *)
Definition dict_of (l : list (string * string)) : gmap string string :=
  list_to_map (reverse l).

Inductive Level : Type := WARNING | DEBUG.

(** The outcome of [one()] on the query for a key. *)
Inductive Found : Type :=
| Row (key : string)
| NoResultFound
| MultipleResultsFound.

Section Manager.

(** The constructors of the base classes [managers.Note],
    [managers.Author] and [managers.Paper], the method [init] of
    [managers.Paper], and the query of [get_publication_by_uri] for the
    item with a key that is not deleted. *)
Variable managers_Note : nat -> option string -> string -> Note.t.
Variable managers_Author :
  nat -> option string -> option string -> bool -> Author.t.
Variable managers_Paper : string -> Paper.
Variable init : Paper -> Paper.
Variable query_one : string -> Found.

(** [Note.__init__] and [Author.__init__] *)
Definition Note_init (n : ItemNote) : Note.t :=
  managers_Note (itemID n) (note_title n) (note n).

Definition Author_init (a : ItemCreator) : Author.t :=
  managers_Author (creatorID a) (firstName a) (lastName a) false.

(** [Paper.populate] *)
Definition populate (self : Paper) (item : Item) : Paper :=
  let self := init self in
  let values := dict_of (data item) in
  let title := values !! "title" in
  let uri := percent "zotero://select/items/1_%s" [local_uuid self] in
  let notes := map Note_init (notes item) in
  let authors := map Author_init (creators item) in
  let tags := list_to_set (tags item) in
  (* Retrieve the date *)
  let date := values !! "date" in
  let '(year, month, day) :=
    if truthy date then
      match re_date_match (str date) with
      | Some (y, m, d) => (Some (int y), Some (int m), Some (int d))
      | None => (year self, month self, day self)
      end
    else (year self, month self, day self) in
  mkPaper (local_uuid self) title (Some uri) notes authors tags
    year month day (dateAdded item) false.

(** [Manager.get_publication_by_uri]: the records passed to [logging] and
    the result, [None] or a paper, unless [one()] raises. *)
Definition get_publication_by_uri (uri : string)
    : list (Level * string * list string) * (Found + option Paper) :=
  match re_papers_uri_match uri with
  | None => ([(WARNING, "%s is not a Zotero URI", [uri])], inr None)
  | Some uriref =>
      let log :=
        [(DEBUG, "Searching for Zotero publication with UUID %s", [uriref])] in
      match query_one uriref with
      | Row key => (log, inr (Some (managers_Paper key)))
      | failure => (log, inl failure)
      end
  end.

End Manager.

End Zotero5.

(** Sample rows and a sample database: one item, with the key [ABCD2345]. *)
Definition sample_item : Zotero5.Item :=
  Zotero5.mkItem "ABCD2345"
    [("title", "A Study"); ("date", "2020-03-15 2020-03-15 00:00:00")]
    [] [] ["read"] (Some "2021-01-02 03:04:05").

Definition blank_paper (key : string) : Zotero5.Paper :=
  Zotero5.mkPaper key None None [] [] ∅ None None None None true.

Definition sample_query (key : string) : Zotero5.Found :=
  if String.eqb key "ABCD2345" then Zotero5.Row key
  else Zotero5.NoResultFound.

Definition sample_Note (id : nat) (title : option string) (html : string)
    : Note.t :=
  Note.mk "note" title html.

Definition sample_Author (id : nat) (firstname surname : option string)
    (surrogate : bool) : Author.t :=
  Author.mk firstname surname.

(** * The string primitives on sample inputs *)

Example replace_does_not_overlap : PyStr.replace "aa" "b" "aaaaa" = "bba".
Proof. reflexivity. Qed.

Example replace_empty_pattern : PyStr.replace EmptyString "-" "abc" = "-a-b-c-".
Proof. reflexivity. Qed.

Example format_fills_fields_in_order :
  format "<bib:{} id={}>" ["Article"; "p1"] = "<bib:Article id=p1>".
Proof. reflexivity. Qed.

Example format_leaves_arguments_alone :
  format "<t>{}</t>" ["{}"] = "<t>{}</t>".
Proof. reflexivity. Qed.

Example escape_markup : escape (Some "a<b>&c") = Some "a&lt;b&gt;&amp;c".
Proof. reflexivity. Qed.

Example escape_keeps_quotes :
  escape (Some ("say " +:+ dq +:+ "it's" +:+ dq))
  = Some ("say " +:+ dq +:+ "it's" +:+ dq).
Proof. reflexivity. Qed.

Example escape_None : escape None = None.
Proof. reflexivity. Qed.

Example basename_of_path : op.basename "/lib/papers/a.pdf" = "a.pdf".
Proof. reflexivity. Qed.

Example join_adds_separator : op.join "out" "f_1-a.pdf" = "out/f_1-a.pdf".
Proof. reflexivity. Qed.

Example filechars_are_replaced :
  RE_FILECHARS_sub "_" ("zotero:1/A-B" +:+ dq) = "zotero_1_A_B_".
Proof. reflexivity. Qed.

Example ZTYPE_article_journal : ZTYPE !! "article-journal" = Some "journalArticle".
Proof. reflexivity. Qed.

(** * Strings *)

Section Strings.

Lemma append_assoc (a b c : string) : (a +:+ b) +:+ c = a +:+ (b +:+ c).
Proof. induction a as [|x a IH]; simpl; [done | by f_equal]. Qed.

Lemma append_nil_r (a : string) : a +:+ EmptyString = a.
Proof. induction a as [|x a IH]; simpl; [done | by f_equal]. Qed.

Lemma concat_map_app f (a b : string) :
  concat_map f (a +:+ b) = concat_map f a +:+ concat_map f b.
Proof.
  induction a as [|x a IH]; cbn [concat_map String.append]; [done|].
  by rewrite IH, append_assoc.
Qed.

Lemma prefix_empty s : String.prefix EmptyString s = true.
Proof. by destruct s. Qed.

(** A character that differs from the first one of [old] is copied. *)
Lemma replace_from_miss a old new c s :
  c <> a ->
  PyStr.replace_from 0 (String a old) new (String c s)
  = String c (PyStr.replace_from 0 (String a old) new s).
Proof.
  intros Hc. simpl. by destruct (ascii_dec a c) as [->|_].
Qed.

(** Replacing a single character is a per-character substitution. *)
Lemma replace_char a new s :
  PyStr.replace (String a EmptyString) new s
  = concat_map (fun c => if Ascii.eqb c a then new else String c EmptyString) s.
Proof.
  unfold PyStr.replace. induction s as [|c s IH]; [done|].
  cbn [concat_map]. destruct (Ascii.eqb_spec c a) as [->|Hne].
  - simpl. destruct (ascii_dec a a); [|done].
    rewrite prefix_empty. by rewrite <- IH.
  - rewrite replace_from_miss by done. by rewrite IH.
Qed.

Lemma escape_concat_map s : Saxutils.escape s = concat_map esc_char s.
Proof.
  unfold Saxutils.escape. rewrite !replace_char.
  induction s as [|c s IH]; [done|].
  cbn [concat_map]. rewrite !concat_map_app, IH. f_equal.
  unfold esc_char.
  destruct (Ascii.eqb_spec c "&") as [->|H1]; [done|].
  cbn [concat_map].
  destruct (Ascii.eqb_spec c ">") as [->|H2]; [done|].
  cbn [concat_map String.append].
  destruct (Ascii.eqb_spec c "<") as [->|H3]; done.
Qed.

Ltac char_cases c :=
  destruct (Ascii.eqb_spec c "&") as [->|?];
  [|destruct (Ascii.eqb_spec c ">") as [->|?];
    [|destruct (Ascii.eqb_spec c "<") as [->|?]]].

Lemma unescape_lt s :
  PyStr.replace "&lt;" "<" (concat_map esc_char s) = concat_map esc1 s.
Proof.
  unfold PyStr.replace. induction s as [|c s IH]; [done|].
  cbn [concat_map]. unfold esc_char at 1, esc1 at 1. char_cases c.
  - simpl. by rewrite IH.
  - simpl. by rewrite IH.
  - simpl. by rewrite prefix_empty, IH.
  - simpl String.append. rewrite replace_from_miss by done. by rewrite IH.
Qed.

Lemma unescape_gt s :
  PyStr.replace "&gt;" ">" (concat_map esc1 s) = concat_map esc2 s.
Proof.
  unfold PyStr.replace. induction s as [|c s IH]; [done|].
  cbn [concat_map]. unfold esc1 at 1, esc2 at 1. char_cases c.
  - simpl. by rewrite IH.
  - simpl. by rewrite prefix_empty, IH.
  - simpl String.append. rewrite replace_from_miss by done. by rewrite IH.
  - simpl String.append. rewrite replace_from_miss by done. by rewrite IH.
Qed.

Lemma unescape_amp s :
  PyStr.replace "&amp;" "&" (concat_map esc2 s) = s.
Proof.
  unfold PyStr.replace. induction s as [|c s IH]; [done|].
  cbn [concat_map]. unfold esc2 at 1.
  destruct (Ascii.eqb_spec c "&") as [->|?].
  - simpl. by rewrite prefix_empty, IH.
  - simpl String.append. rewrite replace_from_miss by done. by rewrite IH.
Qed.

End Strings.

(** C8. For every string, whatever characters it holds (the markup
    characters and the two quotes included), un-escaping what [escape]
    returns gives the string back. *)
Theorem escape_round_trip (s : string) :
  option_map Saxutils.unescape (escape (Some s)) = Some s.
Proof.
  simpl. f_equal. unfold Saxutils.unescape.
  by rewrite escape_concat_map, unescape_lt, unescape_gt, unescape_amp.
Qed.

(** * The monad and the primary output *)

Section Monad.
Context {A B : Type}.
Implicit Types (m : M A) (k : A -> M B).

Lemma bind_ok m k w w' a : m w = (w', Ok a) -> bind m k w = k a w'.
Proof. intros H. unfold bind. by rewrite H. Qed.

Lemma bind_raise m k w w' e :
  m w = (w', Raise e) -> bind m k w = (w', Raise e).
Proof. intros H. unfold bind. by rewrite H. Qed.

Lemma bind_ret (a : A) k w : bind (ret a) k w = k a w.
Proof. done. Qed.

(** A computation that ends normally went through both halves. *)
Lemma bind_inv_ok m k w w' b :
  bind m k w = (w', Ok b) ->
  exists w1 a, m w = (w1, Ok a) /\ k a w1 = (w', Ok b).
Proof.
  unfold bind. destruct (m w) as [w1 [a|e]]; [eauto | done].
Qed.
End Monad.

Lemma set_out_out w : set_out (out w) w = w.
Proof. by destruct w. Qed.

Lemma write_app o i s objs c :
  write o i s objs c = o +:+ write EmptyString i s objs c.
Proof.
  unfold write. destruct c; [|by rewrite append_nil_r].
  destruct objs; simpl; by rewrite append_assoc.
Qed.

Section Emits.

Lemma emits_ret : emits (ret tt) EmptyString.
Proof. intros w. unfold ret. by rewrite append_nil_r, set_out_out. Qed.

Lemma emits_bind m k s s' :
  emits m s -> emits k s' -> emits (m ;; k) (s +:+ s').
Proof.
  intros Hm Hk w. unfold bind. rewrite Hm, Hk. simpl.
  by rewrite append_assoc.
Qed.

Lemma emits_f_write i s objs c :
  emits (f_write i s objs c) (write EmptyString i s objs c).
Proof. intros w. unfold f_write. by rewrite write_app. Qed.

Lemma emits_f_write_raw s : emits (f_write_raw s) s.
Proof. by intros w. Qed.

Lemma emits_for {A} (l : list A) body text :
  (forall x, emits (body x) (text x)) ->
  emits (for_ l body) (concat_text text l).
Proof.
  intros H. induction l as [|x l IH]; simpl.
  - apply emits_ret.
  - by apply emits_bind.
Qed.

Lemma bind_emits {B} m s (k : unit -> M B) w :
  emits m s -> bind m k w = k tt (set_out (out w +:+ s) w).
Proof. intros H. unfold bind. by rewrite H. Qed.

Lemma emits_output_author self a indent :
  exists s, emits (output_author self a indent) s.
Proof.
  eexists. unfold output_author.
  repeat apply emits_bind; apply emits_f_write.
Qed.

End Emits.

Section Extends.
Context {A B : Type}.

Lemma extends_ret (a : A) : extends (ret a).
Proof. intros w. exists EmptyString. simpl. by rewrite append_nil_r. Qed.

Lemma extends_raise (e : Exn) : extends (@raise A e).
Proof. intros w. exists EmptyString. simpl. by rewrite append_nil_r. Qed.

Lemma extends_bind (m : M A) (k : A -> M B) :
  extends m -> (forall a, extends (k a)) -> extends (bind m k).
Proof.
  intros Hm Hk w. unfold bind. destruct (Hm w) as [s Hs].
  destruct (m w) as [w1 [a|e]]; simpl in Hs.
  - destruct (Hk a w1) as [s' Hs']. exists (s +:+ s').
    by rewrite Hs', Hs, append_assoc.
  - by exists s.
Qed.

Lemma keeps_out_extends (m : M A) : keeps_out m -> extends m.
Proof.
  intros H w. exists EmptyString. by rewrite H, append_nil_r.
Qed.

Lemma keeps_out_ret (a : A) : keeps_out (ret a).
Proof. done. Qed.

Lemma keeps_out_raise (e : Exn) : keeps_out (@raise A e).
Proof. done. Qed.

Lemma keeps_out_bind (m : M A) (k : A -> M B) :
  keeps_out m -> (forall a, keeps_out (k a)) -> keeps_out (bind m k).
Proof.
  intros Hm Hk w. unfold bind. specialize (Hm w).
  destruct (m w) as [w1 [a|e]]; simpl in Hm; [|done].
  by rewrite Hk.
Qed.

Lemma keeps_out_try_except (m : M A) (h : Exn -> M A) :
  keeps_out m -> (forall e, keeps_out (h e)) -> keeps_out (try_except m h).
Proof.
  intros Hm Hh w. unfold try_except. specialize (Hm w).
  destruct (m w) as [w1 [a|e]]; simpl in Hm; [done|].
  by rewrite Hh.
Qed.
End Extends.

Lemma emits_extends m s : emits m s -> extends m.
Proof. intros H w. exists s. by rewrite H. Qed.

Lemma extends_for {A} (l : list A) body :
  (forall x, extends (body x)) -> extends (for_ l body).
Proof.
  intros H. induction l as [|x l IH]; simpl.
  - apply extends_ret.
  - by apply extends_bind.
Qed.

(** ** The attachment resolver never writes to the primary output *)

Section KeepsOut.

Lemma keeps_out_logging_debug m a : keeps_out (logging_debug m a).
Proof. done. Qed.

Lemma keeps_out_logging_error m a : keeps_out (logging_error m a).
Proof. done. Qed.

Lemma keeps_out_op_exists p : keeps_out (op_exists p).
Proof. done. Qed.

Lemma keeps_out_os_stat_st_size p : keeps_out (os_stat_st_size p).
Proof. intros w. unfold os_stat_st_size. by destruct (fs w !! p). Qed.

Lemma keeps_out_os_remove p : keeps_out (os_remove p).
Proof. intros w. unfold os_remove. by destruct (fs w !! p). Qed.

Lemma keeps_out_file_embed_annotations f p :
  keeps_out (file_embed_annotations f p).
Proof.
  intros w. unfold file_embed_annotations.
  by destruct (File.embed_annotations f p (fs w)) as [fs' [e|]].
Qed.

Lemma keeps_out_file_exists f : keeps_out (file_exists f).
Proof. done. Qed.

Lemma keeps_out_file_has_externalannotations f :
  keeps_out (file_has_externalannotations f).
Proof. done. Qed.

Lemma keeps_out_self_path self : keeps_out (self_path self).
Proof. unfold self_path. by destruct (path self). Qed.

Create HintDb keeps.
#[local] Hint Resolve keeps_out_logging_debug keeps_out_logging_error
  keeps_out_op_exists keeps_out_os_stat_st_size keeps_out_os_remove
  keeps_out_file_embed_annotations keeps_out_self_path
  keeps_out_file_exists keeps_out_file_has_externalannotations
  keeps_out_ret keeps_out_raise : keeps.

Ltac keeps :=
  repeat first
    [ progress intros
    | apply keeps_out_bind
    | apply keeps_out_try_except
    | match goal with
      | |- keeps_out (if ?b then _ else _) => destruct b
      | |- keeps_out (let '(_, _) := ?r in _) => destruct r
      end
    | solve [auto with keeps] ].

Lemma keeps_out_output_file self buf f indent :
  keeps_out (output_file self buf f indent).
Proof.
  unfold output_file. keeps.
Qed.

Lemma keeps_out_output_files self files indent buf atts :
  keeps_out (output_files self files indent buf atts).
Proof.
  revert buf atts. induction files as [|f files IH]; intros buf atts; simpl.
  - done.
  - apply keeps_out_bind; [apply keeps_out_output_file|].
    intros [buf' ok]. apply IH.
Qed.

End KeepsOut.

(** * The publication serializer *)

Lemma output_paper_unfold self paper indent :
  output_paper self paper indent
  = output_paper_body output_paper self paper indent.
Proof. by destruct paper. Qed.

(** Induction on the chain of containers. *)
Lemma Publication_container_ind (P : Publication.t -> Prop) :
  (forall p, (forall c, Publication.container p = Some c -> P c) -> P p) ->
  forall p, P p.
Proof.
  intros step. fix IH 1. intros p. apply step.
  destruct p as [? ? ? ? ? ? ? ? ? ? [c'|] ? ? ? ? ?]; simpl.
  - intros c [= <-]. apply IH.
  - intros c [=].
Qed.

Lemma extends_f_write i s objs c : extends (f_write i s objs c).
Proof. eapply emits_extends, emits_f_write. Qed.

Lemma extends_f_write_raw s : extends (f_write_raw s).
Proof. eapply emits_extends, emits_f_write_raw. Qed.

Lemma extends_output_author self a indent :
  extends (output_author self a indent).
Proof.
  destruct (emits_output_author self a indent) as [s Hs].
  by eapply emits_extends.
Qed.

Lemma extends_ZTYPE_getitem key : extends (ZTYPE_getitem key).
Proof.
  unfold ZTYPE_getitem.
  destruct (ZTYPE !! key); [apply extends_ret | apply extends_raise].
Qed.

Lemma extends_output_files self files indent buf atts :
  extends (output_files self files indent buf atts).
Proof. apply keeps_out_extends, keeps_out_output_files. Qed.

Create HintDb extends.
#[local] Hint Resolve extends_f_write extends_f_write_raw
  extends_output_author extends_ZTYPE_getitem extends_output_files
  extends_ret extends_raise : extends.

Ltac extends_tac :=
  repeat first
    [ progress intros
    | apply extends_bind
    | apply extends_for
    | match goal with
      | |- extends (if ?b then _ else _) => destruct b
      | |- extends (let '(_, _) := ?r in _) => destruct r
      | |- extends (match ?x with Some _ => _ | None => _ end) =>
          destruct x eqn:?
      | |- extends (match ?x with [] => _ | _ :: _ => _ end) =>
          destruct x eqn:?
      end
    | solve [eauto with extends] ].

Lemma extends_output_paper_body rec self p indent :
  (forall c i, Publication.container p = Some c -> extends (rec self c i)) ->
  extends (output_paper_body rec self p indent).
Proof.
  intros Hrec. unfold output_paper_body. extends_tac.
Qed.

(** Serializing a publication only appends to the primary output. *)
Lemma extends_output_paper self p :
  forall indent, extends (output_paper self p indent).
Proof.
  induction p as [p IH] using Publication_container_ind. intros indent.
  rewrite output_paper_unfold. apply extends_output_paper_body.
  intros c i Hc. by apply IH.
Qed.

(** ** Where a text sits in what is appended *)

Lemma begins_emits_extends {A} m s (k : M A) :
  emits m s -> extends k -> begins (m ;; k) s.
Proof.
  intros Hm Hk w. rewrite (bind_emits _ _ _ _ Hm).
  destruct (Hk (set_out (out w +:+ s) w)) as [rest Hrest].
  exists rest. rewrite Hrest. simpl. by rewrite append_assoc.
Qed.


Lemma begins_includes {A} (m : M A) s : begins m s -> includes m s.
Proof.
  intros H w. destruct (H w) as [rest Hrest].
  by exists EmptyString, rest.
Qed.

Lemma includes_bind_emits {A} m a (k : M A) s :
  emits m a -> includes k s -> includes (m ;; k) s.
Proof.
  intros Hm Hk w. rewrite (bind_emits _ _ _ _ Hm).
  destruct (Hk (set_out (out w +:+ a) w)) as (pre & post & H).
  exists (a +:+ pre), post. rewrite H. simpl. by rewrite !append_assoc.
Qed.

Lemma ZTYPE_getitem_known key z :
  ZTYPE !! key = Some z -> ZTYPE_getitem key = ret z.
Proof. intros H. unfold ZTYPE_getitem. by rewrite H. Qed.

Lemma ZTYPE_getitem_unknown key :
  ZTYPE !! key = None -> ZTYPE_getitem key = raise (KeyError key).
Proof. intros H. unfold ZTYPE_getitem. by rewrite H. Qed.

(** ** Finding the text a block of writes emits *)

Lemma emits_ite (b : bool) m1 m2 s1 s2 :
  emits m1 s1 -> emits m2 s2 ->
  emits (if b then m1 else m2) (if b then s1 else s2).
Proof. by destruct b. Qed.

Lemma emits_match_option {A} (x : option A) f m sf sn :
  (forall a, emits (f a) (sf a)) -> emits m sn ->
  emits (match x with Some a => f a | None => m end)
        (match x with Some a => sf a | None => sn end).
Proof. by destruct x. Qed.

Lemma emits_match_list {A} (l : list A) m1 m2 s1 s2 :
  emits m1 s1 -> emits m2 s2 ->
  emits (match l with [] => m1 | _ :: _ => m2 end)
        (match l with [] => s1 | _ :: _ => s2 end).
Proof. by destruct l. Qed.

Ltac emits_tac :=
  repeat first
    [ apply emits_bind
    | apply emits_f_write
    | apply emits_f_write_raw
    | apply emits_ret
    | apply emits_ite
    | apply emits_match_list
    | apply emits_match_option; [intros ?|]
    | apply emits_for; intros ?
    | progress unfold output_author ].

Lemma emits_eq m s s' : emits m s -> s = s' -> emits m s'.
Proof. by intros H <-. Qed.

Lemma write_text i s objs :
  write EmptyString i s objs true
  = repeat_str "  " i
    +:+ match objs with [] => s | _ :: _ => format s objs end.
Proof. unfold write. by destruct objs. Qed.

Lemma bind_ret_l {A B} (a : A) (k : A -> M B) : bind (ret a) k = k a.
Proof. done. Qed.






(** C10. Once the attachments of a publication are resolved and its type is
    known, a volume that is not [None] is enough for the fragment to hold a
    [prism:number] element, whatever the number: its text is the escaped
    number, and the four characters [None] when the number is [None]. *)
Theorem number_is_emitted_with_volume self p indent w w1 buf atts z v :
  output_files self (Publication.files p) indent EmptyString [] w
    = (w1, Ok (buf, atts)) ->
  ZTYPE !! Publication.type p = Some z ->
  Publication.volume p = Some v ->
  exists pre post,
    out (fst (output_paper self p indent w))
    = out w +:+ pre
      +:+ (repeat_str "  " (indent + 1) +:+ "<prism:number>"
           +:+ match Publication.number p with
               | Some n => Saxutils.escape n
               | None => "None"
               end
           +:+ "</prism:number>" +:+ nl)
      +:+ post.
Proof.
  intros Hf Hz Hv. rewrite output_paper_unfold.
  pose proof (keeps_out_output_files self (Publication.files p) indent
                EmptyString [] w) as Hout. rewrite Hf in Hout. simpl in Hout.
  rewrite <- Hout. unfold output_paper_body.
  erewrite bind_ok by exact Hf. cbv beta iota.
  rewrite (ZTYPE_getitem_known _ _ Hz), bind_ret_l, Hv.
  rewrite (bool_decide_true (Some v ≠ None)) by done.
  match goal with
  | |- exists pre post, out (fst (?m ?w)) = _ +:+ pre +:+ ?a +:+ post =>
      enough (includes m a) as Hm by apply Hm
  end.
  do 6 (eapply includes_bind_emits; [emits_tac|]).
  apply begins_includes, begins_emits_extends.
  - eapply emits_eq; [apply emits_f_write|].
    rewrite write_text. destruct (Publication.number p); simpl; reflexivity.
  - extends_tac. apply extends_output_paper.
Qed.

(** A run of the theorem on a book with volume 3 and no number. *)
Lemma number_is_emitted_with_volume_witness :
  exists pre post,
    out (fst (output_paper Exporter_init handbook 0 empty_world))
    = out empty_world +:+ pre
      +:+ (repeat_str "  " (0 + 1) +:+ "<prism:number>"
           +:+ match Publication.number handbook with
               | Some n => Saxutils.escape n
               | None => "None"
               end
           +:+ "</prism:number>" +:+ nl)
      +:+ post.
Proof.
  apply (number_is_emitted_with_volume Exporter_init handbook 0 empty_world
           empty_world EmptyString [] "book" "3");
    reflexivity.
Defined.

#[local] Hint Resolve extends_output_paper : extends.

Lemma finishes_bind {A} (m : M A) k s t :
  extends m -> (forall a, finishes (k a) s t) -> finishes (bind m k) s t.
Proof.
  intros Hm Hk w w' H. apply bind_inv_ok in H as (w1 & a & H1 & H2).
  destruct (Hm w) as [x Hx]. rewrite H1 in Hx. simpl in Hx.
  destruct (Hk a w1 w' H2) as (pre & mid & post & E).
  exists (x +:+ pre), mid, post. by rewrite E, Hx, !append_assoc.
Qed.

Lemma emits_finishes m s mid t post :
  emits m (s +:+ mid +:+ t +:+ post) -> finishes m s t.
Proof.
  intros H w w' E. rewrite H in E. injection E as <-.
  by exists EmptyString, mid, post.
Qed.

Lemma concat_text_app {A} (text : A -> string) l1 l2 :
  concat_text text (l1 ++ l2) = concat_text text l1 +:+ concat_text text l2.
Proof.
  induction l1 as [|x l1 IH]; simpl; [done|].
  by rewrite IH, append_assoc.
Qed.

(** C2 (amended). When a publication is serialized, each of its notes gets
    a memo fragment after the closing tag of the publication, and the body
    of the fragment is the html of the note passed through [escape]: the
    markup characters arrive as entities. *)
Theorem memo_body_is_escaped self p indent w w' note :
  output_paper self p indent w = (w', Ok tt) ->
  note ∈ Publication.notes p ->
  exists pre mid post,
    out w'
    = out w +:+ pre
      +:+ (repeat_str "  " indent +:+ "</bib:Article>" +:+ nl +:+ nl)
      +:+ mid
      +:+ (repeat_str "  " indent +:+ "<bib:Memo rdf:about=" +:+ dq +:+ "#"
             +:+ Note.uuid note +:+ dq +:+ ">"
           +:+ repeat_str "  " (indent + 1) +:+ Saxutils.escape (Note.html note)
           +:+ repeat_str "  " indent +:+ "</bib:Memo>")
      +:+ post.
Proof.
  intros Hrun Hnote. revert w w' Hrun.
  change (finishes (output_paper self p indent)
            (repeat_str "  " indent +:+ "</bib:Article>" +:+ nl +:+ nl)
            (memo_fragment indent note)).
  rewrite output_paper_unfold. unfold output_paper_body.
  apply finishes_bind; [extends_tac|]. intros [appendout attachments].
  do 17 (apply finishes_bind; [extends_tac | intros ?]).
  apply list_elem_of_split in Hnote as (l1 & l2 & ->).
  eapply (emits_finishes _ _ (concat_text (memo_fragment indent) l1) _
            (concat_text (memo_fragment indent) l2 +:+ appendout)).
  eapply emits_eq.
  { apply emits_bind; [apply emits_f_write|].
    apply emits_bind; [|apply emits_f_write_raw].
    apply (emits_for _ _ (memo_fragment indent)). intros n.
    eapply emits_eq; [emits_tac|].
    rewrite !write_text. unfold memo_fragment, format.
    by repeat (progress (rewrite ?append_assoc; simpl)). }
  rewrite write_text, concat_text_app. unfold BIBTYPE. rewrite lookup_empty.
  unfold format. by repeat (progress (rewrite ?append_assoc; simpl)).
Qed.

(** A run of the theorem on a book with one note. *)
Lemma memo_body_is_escaped_witness :
  exists pre mid post,
    out (fst (output_paper Exporter_init handbook 0 empty_world))
    = out empty_world +:+ pre
      +:+ (repeat_str "  " 0 +:+ "</bib:Article>" +:+ nl +:+ nl)
      +:+ mid
      +:+ (repeat_str "  " 0 +:+ "<bib:Memo rdf:about=" +:+ dq +:+ "#"
             +:+ "n1" +:+ dq +:+ ">"
           +:+ repeat_str "  " (0 + 1) +:+ Saxutils.escape "<p>A & B</p>"
           +:+ repeat_str "  " 0 +:+ "</bib:Memo>")
      +:+ post.
Proof.
  apply (memo_body_is_escaped Exporter_init handbook 0 empty_world
           (fst (output_paper Exporter_init handbook 0 empty_world))
           (Note.mk "n1" None "<p>A & B</p>")).
  - vm_compute. reflexivity.
  - simpl. apply list_elem_of_here.
Defined.

(** C2 (as stated, refuted). The book has a note whose body is
    [<p>A & B</p>]; what its serialization writes does not hold that body
    anywhere. *)
Lemma memo_body_is_not_verbatim :
  ~ (forall note,
       note ∈ Publication.notes handbook ->
       contains (out (fst (output_paper Exporter_init handbook 0 empty_world)))
                (Note.html note) = true).
Proof.
  intros H. specialize (H (Note.mk "n1" None "<p>A & B</p>")).
  assert (Note.mk "n1" None "<p>A & B</p>" ∈ Publication.notes handbook) as Hin
    by (simpl; apply list_elem_of_here).
  specialize (H Hin). vm_compute in H. discriminate H.
Qed.

(** * Errors *)

(** A publication whose type is not a key of [ZTYPE] is never serialized to
    the end: the lookup raises [KeyError] unless resolving the attachments
    raised before. *)
Lemma output_paper_unknown_type self p indent w :
  ZTYPE !! Publication.type p = None ->
  exists e w', output_paper self p indent w = (w', Raise e).
Proof.
  intros Hz. rewrite output_paper_unfold. unfold output_paper_body.
  destruct (output_files self (Publication.files p) indent EmptyString [] w)
    as [w1 [[appendout attachments]|e]] eqn:Hf.
  - exists (KeyError (Publication.type p)).
    erewrite bind_ok by exact Hf. cbv beta iota.
    do 2 (erewrite bind_emits by emits_tac).
    rewrite (ZTYPE_getitem_unknown _ Hz). eexists. reflexivity.
  - exists e, w1. by erewrite bind_raise.
Qed.

Lemma for_app {A} (l1 l2 : list A) body w :
  for_ (l1 ++ l2) body w = (for_ l1 body ;; for_ l2 body) w.
Proof.
  revert w. induction l1 as [|x l1 IH]; intros w.
  - reflexivity.
  - cbn [app for_]. unfold bind.
    destruct (body x w) as [w1 [[]|e]]; [|reflexivity].
    apply IH.
Qed.

(** A loop raises when the body raises on its last element, at the latest. *)
Lemma for_raises {A} (l : list A) x body w :
  (forall w, exists e w', body x w = (w', Raise e)) ->
  exists e w', for_ (l ++ [x]) body w = (w', Raise e).
Proof.
  intros Hx. revert w. induction l as [|y l IH]; intros w; simpl.
  - destruct (Hx w) as (e & w' & H). exists e, w'. by erewrite bind_raise.
  - unfold bind at 1. destruct (body y w) as [w1 [[]|e]]; [apply IH | eauto].
Qed.

(** C5. When a publication whose type is not a key of [ZTYPE] is among the
    publications, [export] ends with an exception raised to its caller,
    during the loop over the publications and no later than on that
    publication; the stream is closed on what had been written by then:
    nothing that follows is serialized and the envelope is not closed.
    Wherever such a publication is serialized, [output_paper] raises. *)
Theorem unknown_type_aborts_export self path pubs1 p pubs2 colls w :
  ZTYPE !! Publication.type p = None ->
  exists e w1,
    for_ (pubs1 ++ [p]) (fun q => output_paper (set_path (Some path) self) q 1)
      (set_out RDF_HEADER (open_wt (path +:+ ".rdf") w))
    = (w1, Raise e)
    /\ export self path (pubs1 ++ p :: pubs2) colls w
       = (close (path +:+ ".rdf") w1, Raise e)
    /\ forall indent w0, exists e0 w0',
         output_paper self p indent w0 = (w0', Raise e0).
Proof.
  intros Hz.
  destruct (for_raises pubs1 p
              (fun q => output_paper (set_path (Some path) self) q 1)
              (set_out RDF_HEADER (open_wt (path +:+ ".rdf") w)))
    as (e & w1 & Hloop).
  { intros w0. by apply output_paper_unknown_type. }
  exists e, w1. split; [exact Hloop|].
  split; [|intros indent w0; by apply output_paper_unknown_type].
  unfold export.
  assert ((if annotate (set_path (Some path) self)
           then os_makedirs path else ret tt) = ret tt) as ->
    by (by destruct (annotate _)).
  rewrite bind_ret_l. unfold with_open.
  erewrite bind_emits by apply emits_f_write_raw.
  change (pubs1 ++ p :: pubs2) with (pubs1 ++ [p] ++ pubs2).
  rewrite app_assoc.
  assert (set_out (out (open_wt (path +:+ ".rdf") w) +:+ RDF_HEADER)
            (open_wt (path +:+ ".rdf") w)
          = set_out RDF_HEADER (open_wt (path +:+ ".rdf") w)) as -> by done.
  erewrite bind_raise; [reflexivity|].
  rewrite for_app. by erewrite bind_raise.
Qed.

(** A run of the theorem: a leaflet of unknown type after the study. *)
Lemma unknown_type_aborts_export_witness :
  exists e w1,
    for_ ([study] ++ [leaflet])
      (fun q => output_paper (set_path (Some "lib") Exporter_init) q 1)
      (set_out RDF_HEADER (open_wt ("lib" +:+ ".rdf") empty_world))
    = (w1, Raise e)
    /\ export Exporter_init "lib" ([study] ++ leaflet :: [handbook]) []
         empty_world
       = (close ("lib" +:+ ".rdf") w1, Raise e)
    /\ forall indent w0, exists e0 w0',
         output_paper Exporter_init leaflet indent w0 = (w0', Raise e0).
Proof.
  apply (unknown_type_aborts_export Exporter_init "lib" [study] leaflet
           [handbook] [] empty_world).
  vm_compute. reflexivity.
Defined.

#[local] Arguments write : simpl never.

(** C6. When the embedding operation is invoked for an attachment and
    raises, the destination is not left on disk.  For a [PdfReadError] or
    an [IOError] the failure is logged at error level, the attachment is
    emitted with the original path of the file and [output_file] returns
    normally; an exception of any other class is raised to the caller. *)
Theorem embedding_failure_policy self f buf indent w dir e files' :
  annotate self = true ->
  path self = Some dir ->
  File.exists_ f (fs w) = true ->
  File.has_externalannotations f (fs w) = true ->
  from_option String.length 0 (fs w !! destination dir f) = 0 ->
  File.embed_annotations f (destination dir f) (fs w) = (files', Some e) ->
  let r := output_file self buf f indent w in
  fs (fst r) = delete (destination dir f) files'
  /\ embedded (fst r) = embedded w ++ [(File.uuid f, destination dir f)]
  /\ match e with
     | PdfReadError _ | IOError _ _ =>
         log (fst r)
         = log w
           ++ [mkLogRecord DEBUG "Writing annotated PDF [%s] from [%s]"
                 [ArgStr (destination dir f); ArgStr (File.path f)];
               mkLogRecord ERROR "Error while annotating (%s): %s"
                 [ArgType e; ArgExn e]]
         /\ exists head,
              snd r
              = Ok (buf +:+ head
                    +:+ repeat_str "  " (indent + 1)
                    +:+ "<rdf:resource rdf:resource=" +:+ dq
                    +:+ Saxutils.escape (File.path f) +:+ dq +:+ "/>" +:+ nl
                    +:+ repeat_str "  " indent +:+ "</z:Attachment>" +:+ nl,
                    true)
     | KeyError _ | TypeError _ | OtherException _ _ => snd r = Raise e
     end.
Proof.
  intros Hann Hdir Hex Hext Hsize Hembed r. subst r.
  unfold output_file, bind, try_except, file_exists,
    file_has_externalannotations, self_path, logging_debug, op_exists,
    os_stat_st_size, file_embed_annotations, os_remove, logging_error,
    ret, raise.
  fold (destination dir f).
  rewrite Hex, Hann. cbn [negb]. rewrite Hext, Hdir.
  fold (destination dir f). cbn [fs set_log set_fs set_embedded].
  assert (forall path : string,
    write
      (write
         (write
            (write
               (write
                  (write buf indent
                     ("<z:Attachment rdf:about=" +:+ dq +:+ "#{}" +:+ dq
                      +:+ ">" +:+ nl) [File.uuid f] true)
                  (indent + 1) ("<z:itemType>attachment</z:itemType>" +:+ nl)
                  [] true)
               (indent + 1) ("<dc:title>{}</dc:title>" +:+ nl)
               [str (escape (File.title f))] (truthy (File.title f)))
            (indent + 1) ("<link:type>{}</link:type>" +:+ nl)
            [str (File.mimetype f)] (truthy (File.mimetype f)))
         (indent + 1)
         ("<rdf:resource rdf:resource=" +:+ dq +:+ "{}" +:+ dq +:+ "/>" +:+ nl)
         [str (escape (Some path))] true)
      indent ("</z:Attachment>" +:+ nl) [] true
    = buf
      +:+ (write EmptyString indent
             ("<z:Attachment rdf:about=" +:+ dq +:+ "#{}" +:+ dq
              +:+ ">" +:+ nl) [File.uuid f] true
           +:+ write EmptyString (indent + 1)
                 ("<z:itemType>attachment</z:itemType>" +:+ nl) [] true
           +:+ write EmptyString (indent + 1) ("<dc:title>{}</dc:title>" +:+ nl)
                 [str (escape (File.title f))] (truthy (File.title f))
           +:+ write EmptyString (indent + 1)
                 ("<link:type>{}</link:type>" +:+ nl)
                 [str (File.mimetype f)] (truthy (File.mimetype f)))
      +:+ repeat_str "  " (indent + 1)
      +:+ "<rdf:resource rdf:resource=" +:+ dq
      +:+ Saxutils.escape path +:+ dq +:+ "/>" +:+ nl
      +:+ repeat_str "  " indent +:+ "</z:Attachment>" +:+ nl) as Hbuf.
  { intros path.
    rewrite 5 (write_app (write _ _ _ _ _)), (write_app buf).
    rewrite !write_text. unfold format.
    by repeat (progress (rewrite ?append_assoc; simpl)). }
  destruct (fs w !! destination dir f) as [[|c content]|] eqn:E;
    [|discriminate Hsize|];
    repeat (first [rewrite E | rewrite Hembed | progress cbn]);
    (destruct (files' !! destination dir f) as [partial|] eqn:E';
     repeat (first [rewrite E' | progress cbn]));
    (destruct e; cbn;
     repeat split; rewrite ?delete_id by done; rewrite <- ?app_assoc;
     try done; eexists;
     refine (f_equal (fun b => Ok (b, true)) (Hbuf _))).
Qed.

(** A run of the theorem: the embedding writes four bytes and fails on a
    malformed source. *)
Lemma embedding_failure_policy_witness :
  let e := PdfReadError "EOF marker not found" in
  let f := annotated_pdf (Some e) in
  let r := output_file (annotating false) EmptyString f 1 empty_world in
  fs (fst r) = delete (destination "out" f) (<[destination "out" f := "%PDF"]> ∅)
  /\ embedded (fst r) = embedded empty_world ++ [(File.uuid f, destination "out" f)]
  /\ (log (fst r)
      = log empty_world
        ++ [mkLogRecord DEBUG "Writing annotated PDF [%s] from [%s]"
              [ArgStr (destination "out" f); ArgStr (File.path f)];
            mkLogRecord ERROR "Error while annotating (%s): %s"
              [ArgType e; ArgExn e]]
      /\ exists head,
           snd r
           = Ok (EmptyString +:+ head
                 +:+ repeat_str "  " (1 + 1)
                 +:+ "<rdf:resource rdf:resource=" +:+ dq
                 +:+ Saxutils.escape (File.path f) +:+ dq +:+ "/>" +:+ nl
                 +:+ repeat_str "  " 1 +:+ "</z:Attachment>" +:+ nl,
                 true)).
Proof.
  apply (embedding_failure_policy (annotating false)
           (annotated_pdf (Some (PdfReadError "EOF marker not found")))
           EmptyString 1 empty_world "out"
           (PdfReadError "EOF marker not found")
           (<[destination "out"
                (annotated_pdf (Some (PdfReadError "EOF marker not found")))
              := "%PDF"]> ∅));
    reflexivity.
Defined.

(** * Attachments *)

Lemma output_files_app self l1 l2 indent buf atts w :
  output_files self (l1 ++ l2) indent buf atts w
  = bind (output_files self l1 indent buf atts)
      (fun r => output_files self l2 indent r.1 r.2) w.
Proof.
  revert buf atts w. induction l1 as [|f l1 IH]; intros buf atts w.
  - reflexivity.
  - cbn [app output_files]. unfold bind.
    destruct (output_file self buf f indent w) as [w1 [[buf' ok]|e]];
      [|reflexivity].
    apply IH.
Qed.

Lemma output_file_missing self buf f indent w :
  File.exists_ f (fs w) = false ->
  output_file self buf f indent w = (w, Ok (buf, false)).
Proof.
  intros H. unfold output_file, bind, file_exists. by rewrite H.
Qed.

Lemma bind_ext_l {A B} (m m' : M A) (k : A -> M B) w :
  m w = m' w -> bind m k w = bind m' k w.
Proof. intros H. unfold bind. by rewrite H. Qed.

(** C7. A file whose [exists()] returns false when the loop reaches it is
    passed over: [output_file] returns false without an exception, leaving
    the buffer and the world as they are, and the publication is serialized
    exactly as if the file were not in its list: no fragment, no link. *)
Theorem missing_file_is_omitted self p l1 f l2 indent w w1 buf atts :
  output_files self l1 indent EmptyString [] w = (w1, Ok (buf, atts)) ->
  File.exists_ f (fs w1) = false ->
  output_file self buf f indent w1 = (w1, Ok (buf, false))
  /\ output_paper self (Publication.set_files (l1 ++ f :: l2) p) indent w
     = output_paper self (Publication.set_files (l1 ++ l2) p) indent w.
Proof.
  intros Hl1 Hex. split; [by apply output_file_missing|].
  rewrite !output_paper_unfold. unfold output_paper_body.
  cbn [Publication.set_files Publication.files Publication.type
       Publication.uuid Publication.authors Publication.title
       Publication.abstract Publication.volume Publication.number
       Publication.doi Publication.pages Publication.keywords
       Publication.read Publication.container Publication.date
       Publication.creationdate Publication.notes].
  apply bind_ext_l. rewrite !output_files_app. unfold bind at 1 2.
  rewrite Hl1. cbn [fst snd output_files]. unfold bind at 1.
  by rewrite (output_file_missing _ _ _ _ _ Hex).
Qed.

(** A run of the theorem: a missing file before a file that exists. *)
Lemma missing_file_is_omitted_witness :
  output_file Exporter_init EmptyString missing_pdf 1 empty_world
  = (empty_world, Ok (EmptyString, false))
  /\ output_paper Exporter_init
       (Publication.set_files ([] ++ missing_pdf :: [annotated_pdf None]) study)
       1 empty_world
     = output_paper Exporter_init
         (Publication.set_files ([] ++ [annotated_pdf None]) study)
         1 empty_world.
Proof.
  apply (missing_file_is_omitted Exporter_init study [] missing_pdf
           [annotated_pdf None] 1 empty_world empty_world EmptyString []);
    reflexivity.
Defined.

(** C9. Resolving the attachments of a publication writes nothing to the
    primary output, and it comes first.  When it ends with an exception,
    [output_paper] ends there with that exception, the primary output being
    what it was before the publication; otherwise the fragment of the
    publication is appended from the state the resolution left. *)
Theorem attachments_are_resolved_first self p indent w w' r :
  output_files self (Publication.files p) indent EmptyString [] w = (w', r) ->
  out w' = out w
  /\ match r with
     | Raise e => output_paper self p indent w = (w', Raise e)
     | Ok _ =>
         exists fragment,
           out (fst (output_paper self p indent w)) = out w' +:+ fragment
     end.
Proof.
  intros Hf. split.
  - pose proof (keeps_out_output_files self (Publication.files p) indent
                  EmptyString [] w) as H.
    by rewrite Hf in H.
  - rewrite output_paper_unfold. unfold output_paper_body.
    destruct r as [[appendout attachments]|e]; [|by erewrite bind_raise].
    erewrite bind_ok by exact Hf. cbv beta iota.
    match goal with
    | |- exists fragment, out (fst (?m ?w)) = _ =>
        enough (extends m) as Hm by apply Hm
    end.
    extends_tac.
Qed.

(** A run of the theorem: the embedding of the only attachment fails with
    an exception that is not recoverable. *)
Lemma attachments_are_resolved_first_witness :
  let p :=
    Publication.set_files
      [annotated_pdf (Some (OtherException "ValueError" "bad object"))] study in
  let w' :=
    fst (output_files (annotating false) (Publication.files p) 1
           EmptyString [] empty_world) in
  out w' = out empty_world
  /\ output_paper (annotating false) p 1 empty_world
     = (w', Raise (OtherException "ValueError" "bad object")).
Proof.
  apply (attachments_are_resolved_first (annotating false)
           (Publication.set_files
              [annotated_pdf (Some (OtherException "ValueError" "bad object"))]
              study)
           1 empty_world _
           (Raise (OtherException "ValueError" "bad object"))).
  vm_compute. reflexivity.
Defined.

(** ** The cached copy and the [overwrite] option *)

(** [output_file] never reads [self.overwrite]. *)
Lemma output_file_ignores_overwrite self b buf f indent :
  output_file (set_overwrite b self) buf f indent
  = output_file self buf f indent.
Proof. reflexivity. Qed.

(** A destination that exists and is not empty is reused: the embedding
    operation is not invoked and the files are as they were. *)
Lemma existing_copy_is_reused self f buf indent w dir c content :
  annotate self = true ->
  path self = Some dir ->
  File.exists_ f (fs w) = true ->
  File.has_externalannotations f (fs w) = true ->
  fs w !! destination dir f = Some (String c content) ->
  let r := output_file self buf f indent w in
  embedded (fst r) = embedded w
  /\ fs (fst r) = fs w
  /\ exists out, snd r = Ok (out, true).
Proof.
  intros Hann Hdir Hex Hext E r. subst r.
  unfold output_file, bind, try_except, file_exists,
    file_has_externalannotations, self_path, logging_debug, op_exists,
    os_stat_st_size, file_embed_annotations, os_remove, logging_error,
    ret, raise.
  fold (destination dir f).
  rewrite Hex, Hann. cbn [negb]. rewrite Hext, Hdir.
  fold (destination dir f). cbn [fs set_log set_fs set_embedded].
  repeat (first [rewrite E | progress cbn]).
  repeat split. by eexists.
Qed.

(** C4 (the code at the failing input). With [annotate] and [overwrite]
    both set, and the annotated copy already in the output directory,
    [output_file] does not invoke the embedding operation: no call is
    recorded, the files are untouched and the copy is referenced. *)
Theorem overwrite_does_not_embed_again :
  let r :=
    output_file (annotating true) EmptyString (annotated_pdf None) 1
      world_with_copy in
  overwrite (annotating true) = true
  /\ embedded (fst r) = []
  /\ fs (fst r) = fs world_with_copy
  /\ snd r
     = Ok ("  <z:Attachment rdf:about=" +:+ dq +:+ "#f:1" +:+ dq +:+ ">" +:+ nl
           +:+ "    <z:itemType>attachment</z:itemType>" +:+ nl
           +:+ "    <dc:title>A</dc:title>" +:+ nl
           +:+ "    <link:type>application/pdf</link:type>" +:+ nl
           +:+ "    <rdf:resource rdf:resource=" +:+ dq +:+ "out/f_1-a.pdf"
           +:+ dq +:+ "/>" +:+ nl
           +:+ "  </z:Attachment>" +:+ nl,
           true).
Proof. vm_compute. repeat split. Qed.

(** ** Authors *)

(** C3 (the code at the failing input). The names of an author are written
    as they are: the ampersand and the angle brackets of the sample author
    reach the output, where [escape] would have produced entities. *)
Theorem author_names_are_not_escaped :
  out (fst (output_author Exporter_init doe_and_sons 0 empty_world))
  = "<foaf:Person>" +:+ nl
    +:+ "  <foaf:surname>Doe <Sons></foaf:surname>" +:+ nl
    +:+ "  <foaf:givenname>R&D</foaf:givenname>" +:+ nl
    +:+ "</foaf:Person>" +:+ nl
  /\ escape (Author.surname doe_and_sons) = Some "Doe &lt;Sons&gt;"
  /\ escape (Author.firstname doe_and_sons) = Some "R&amp;D".
Proof. vm_compute. repeat split. Qed.

(** For every author, the fragment holds [str(surname)] and
    [str(firstname)] with no escaping. *)
Lemma output_author_text self a indent :
  emits (output_author self a indent)
    (repeat_str "  " indent +:+ "<foaf:Person>" +:+ nl
     +:+ repeat_str "  " (indent + 1) +:+ "<foaf:surname>"
     +:+ str (Author.surname a) +:+ "</foaf:surname>" +:+ nl
     +:+ repeat_str "  " (indent + 1) +:+ "<foaf:givenname>"
     +:+ str (Author.firstname a) +:+ "</foaf:givenname>" +:+ nl
     +:+ repeat_str "  " indent +:+ "</foaf:Person>" +:+ nl).
Proof.
  eapply emits_eq; [emits_tac|].
  rewrite !write_text. unfold format.
  by repeat (progress (rewrite ?append_assoc; simpl)).
Qed.

(** * Further properties of escaping *)

Lemma contains_char_cons c x s :
  contains (String x s) (String c EmptyString)
  = Ascii.eqb c x || contains s (String c EmptyString).
Proof.
  cbn [contains String.prefix]. rewrite prefix_empty.
  destruct (ascii_dec c x) as [->|Hne].
  - by rewrite Ascii.eqb_refl.
  - apply Ascii.eqb_neq in Hne. by rewrite Hne.
Qed.

Lemma contains_char_app c a b :
  contains (a +:+ b) (String c EmptyString)
  = contains a (String c EmptyString) || contains b (String c EmptyString).
Proof.
  induction a as [|x a IH].
  - simpl. by destruct b.
  - cbn [String.append]. rewrite !contains_char_cons, IH.
    by rewrite orb_assoc.
Qed.

Lemma contains_char_concat_map c f s :
  (forall x, contains (f x) (String c EmptyString) = false) ->
  contains (concat_map f s) (String c EmptyString) = false.
Proof.
  intros H. induction s as [|x s IH]; [done|].
  cbn [concat_map]. by rewrite contains_char_app, H, IH.
Qed.

(** X1. What [escape] returns for a string holds neither [<] nor [>]. *)
Theorem escaped_text_has_no_angle_bracket (s : string) :
  contains (str (escape (Some s))) "<" = false
  /\ contains (str (escape (Some s))) ">" = false.
Proof.
  cbn [escape str]. rewrite escape_concat_map.
  split; apply contains_char_concat_map; intros x; unfold esc_char;
    destruct (Ascii.eqb_spec x "&") as [->|?]; [done| |done|];
    (destruct (Ascii.eqb_spec x ">") as [->|?]; [done|]);
    (destruct (Ascii.eqb_spec x "<") as [->|?]; [done|]);
    rewrite contains_char_cons; cbn [contains String.prefix];
    rewrite orb_false_r; by apply Ascii.eqb_neq.
Qed.

(** X2. Escaping a concatenation gives the concatenation of the escaped
    parts. *)
Theorem escape_of_concatenation (a b : string) :
  escape (Some (a +:+ b))
  = Some (str (escape (Some a)) +:+ str (escape (Some b))).
Proof.
  cbn [escape str]. by rewrite !escape_concat_map, concat_map_app.
Qed.

Lemma concat_map_esc_char_safe s :
  contains s "&" = false -> contains s "<" = false ->
  contains s ">" = false ->
  concat_map esc_char s = s.
Proof.
  induction s as [|x s IH]; [done|].
  rewrite !contains_char_cons. intros [Ha Hs1]%orb_false_elim
    [Hl Hs2]%orb_false_elim [Hg Hs3]%orb_false_elim.
  cbn [concat_map]. rewrite IH by done. unfold esc_char.
  rewrite (Ascii.eqb_sym x "&"), Ha, (Ascii.eqb_sym x ">"), Hg,
    (Ascii.eqb_sym x "<"), Hl.
  done.
Qed.

(** X3. A string with no ampersand and no angle bracket is returned as it
    is by [escape]: the quotes, in particular, are not escaped. *)
Theorem escape_leaves_other_characters s :
  contains s "&" = false ->
  contains s "<" = false ->
  contains s ">" = false ->
  escape (Some s) = Some s.
Proof.
  intros Ha Hl Hg. cbn [escape]. rewrite escape_concat_map.
  by rewrite concat_map_esc_char_safe.
Qed.

(** A run of the theorem on a string with both quotes. *)
Lemma escape_leaves_other_characters_witness :
  escape (Some ("a " +:+ dq +:+ "b" +:+ dq +:+ " it's"))
  = Some ("a " +:+ dq +:+ "b" +:+ dq +:+ " it's").
Proof.
  apply (escape_leaves_other_characters
           ("a " +:+ dq +:+ "b" +:+ dq +:+ " it's"));
    reflexivity.
Defined.

Lemma saxutils_unescape_escape s :
  Saxutils.unescape (Saxutils.escape s) = s.
Proof.
  unfold Saxutils.unescape.
  by rewrite escape_concat_map, unescape_lt, unescape_gt, unescape_amp.
Qed.

(** X4. [escape] is injective: two values with the same escaped form are
    the same value. *)
Theorem escape_is_injective (a b : option string) :
  escape a = escape b -> a = b.
Proof.
  destruct a as [a|], b as [b|]; cbn [escape]; intros H; try done.
  injection H as H. f_equal.
  by rewrite <- (saxutils_unescape_escape a), H, saxutils_unescape_escape.
Qed.

(** A run of the theorem. *)
Lemma escape_is_injective_witness : Some "a<b" = Some "a<b".
Proof.
  apply (escape_is_injective (Some "a<b") (Some "a<b")). reflexivity.
Defined.

(** * The destination of annotated copies *)

Lemma is_filechar_cases c :
  is_filechar c = true ->
  c = "/"%char \/ c = ":"%char \/ c = "-"%char \/ c = "034"%char
  \/ c = "039"%char.
Proof.
  unfold is_filechar. rewrite !orb_true_iff, !Ascii.eqb_eq. tauto.
Qed.

Lemma RE_FILECHARS_sub_has_no_filechar c s :
  is_filechar c = true ->
  contains (RE_FILECHARS_sub "_" s) (String c EmptyString) = false.
Proof.
  intros Hc. induction s as [|x s IH]; [done|].
  cbn [RE_FILECHARS_sub]. rewrite contains_char_app, IH, orb_false_r.
  destruct (is_filechar x) eqn:Hx.
  - destruct (is_filechar_cases c Hc) as [->|[->|[->|[->| ->]]]]; reflexivity.
  - rewrite contains_char_cons. cbn [contains String.prefix].
    rewrite orb_false_r. apply Ascii.eqb_neq. intros ->. congruence.
Qed.

Lemma RE_FILECHARS_sub_length s :
  String.length (RE_FILECHARS_sub "_" s) = String.length s.
Proof.
  induction s as [|x s IH]; [done|].
  cbn [RE_FILECHARS_sub]. destruct (is_filechar x); simpl; by rewrite IH.
Qed.

(** X5. Replacing the file characters of an identifier by an underscore
    keeps its length and leaves none of them: no slash, colon, hyphen or
    quote is left. *)
Theorem sanitized_identifier_has_no_filechar (s : string) (c : ascii) :
  is_filechar c = true ->
  contains (RE_FILECHARS_sub "_" s) (String c EmptyString) = false
  /\ String.length (RE_FILECHARS_sub "_" s) = String.length s.
Proof.
  intros Hc. split.
  - by apply RE_FILECHARS_sub_has_no_filechar.
  - apply RE_FILECHARS_sub_length.
Qed.

(** A run of the theorem on the slash and a Zotero-like identifier. *)
Lemma sanitized_identifier_has_no_filechar_witness :
  contains (RE_FILECHARS_sub "_" "zotero:paper/1-2") (String "/" EmptyString)
  = false
  /\ String.length (RE_FILECHARS_sub "_" "zotero:paper/1-2")
     = String.length "zotero:paper/1-2".
Proof.
  apply (sanitized_identifier_has_no_filechar "zotero:paper/1-2" "/").
  reflexivity.
Defined.

Lemma basename_has_no_sep p : contains (op.basename p) "/" = false.
Proof.
  induction p as [|x p IH]; [done|].
  cbn [op.basename]. by destruct (contains (String x p) "/") eqn:E.
Qed.

Lemma basename_without_sep n :
  contains n "/" = false -> op.basename n = n.
Proof. intros H. destruct n as [|x n]; [done|]. cbn [op.basename]. by rewrite H. Qed.

Lemma basename_after_sep pre n :
  contains n "/" = false -> op.basename (pre +:+ "/" +:+ n) = n.
Proof.
  intros Hn. induction pre as [|x pre IH].
  - change (EmptyString +:+ "/" +:+ n) with (String "/" n).
    cbn [op.basename]. rewrite contains_char_cons. cbn [Ascii.eqb orb].
    change (Ascii.eqb "/" "/") with true. cbn [orb].
    by apply basename_without_sep.
  - change (String x pre +:+ "/" +:+ n) with (String x (pre +:+ "/" +:+ n)).
    cbn [op.basename].
    rewrite contains_char_cons, contains_char_app.
    change (contains ("/" +:+ n) "/") with (contains (String "/" n) "/").
    rewrite (contains_char_cons "/" "/" n).
    change (Ascii.eqb "/" "/") with true.
    rewrite orb_true_l, orb_true_r, orb_true_r. exact IH.
Qed.

Lemma endswith_sep_split a :
  op.endswith_sep a = true -> exists pre, a = pre +:+ "/".
Proof.
  induction a as [|x a IH]; [done|].
  destruct a as [|y a].
  - cbn. intros ->%Ascii.eqb_eq. by exists EmptyString.
  - intros H. destruct (IH H) as [pre Hpre]. exists (String x pre).
    cbn [String.append]. by rewrite <- Hpre.
Qed.

Lemma without_sep_startswith n :
  contains n "/" = false -> op.startswith_sep n = false.
Proof.
  destruct n as [|x n]; [done|]. rewrite contains_char_cons.
  intros [H _]%orb_false_elim. cbn [op.startswith_sep].
  by rewrite Ascii.eqb_sym.
Qed.

Lemma prefix_append a b : String.prefix a (a +:+ b) = true.
Proof.
  induction a as [|x a IH]; [apply prefix_empty|].
  cbn [String.append String.prefix]. by destruct (ascii_dec x x).
Qed.

Lemma annotated_name_has_no_sep f : contains (annotated_name f) "/" = false.
Proof.
  unfold annotated_name.
  rewrite !contains_char_app, RE_FILECHARS_sub_has_no_filechar by done.
  by rewrite basename_has_no_sep.
Qed.

(** X6. The annotated copy of a file is named after the sanitized
    identifier and the base name of the file, a name with no separator, and
    it is placed under the export directory: the directory is a prefix of
    the destination and the base name of the destination is that name. *)
Theorem destination_is_under_the_directory (dir : string) (f : File.t) :
  contains (annotated_name f) "/" = false
  /\ op.basename (destination dir f) = annotated_name f
  /\ String.prefix dir (destination dir f) = true.
Proof.
  pose proof (annotated_name_has_no_sep f) as Hn.
  split; [exact Hn|].
  unfold destination. fold (annotated_name f). unfold op.join.
  rewrite (without_sep_startswith _ Hn).
  destruct dir as [|x dir].
  - split; [by apply basename_without_sep | apply prefix_empty].
  - destruct (op.endswith_sep (String x dir)) eqn:E.
    + split; [|apply prefix_append].
      destruct (endswith_sep_split _ E) as [pre ->].
      rewrite append_assoc. by apply basename_after_sep.
    + split; [by apply basename_after_sep | apply prefix_append].
Qed.

(** * The attachment resolver, case by case *)

Lemma write_conditional i s o objs c :
  write EmptyString i s (o :: objs) c
  = if c then repeat_str "  " i +:+ format s (o :: objs) else EmptyString.
Proof. by destruct c. Qed.

(** The buffer after the six writes of [output_file]. *)
Lemma attachment_buffer buf indent f path :
  write
    (write
       (write
          (write
             (write
                (write buf indent
                   ("<z:Attachment rdf:about=" +:+ dq +:+ "#{}" +:+ dq
                    +:+ ">" +:+ nl) [File.uuid f] true)
                (indent + 1) ("<z:itemType>attachment</z:itemType>" +:+ nl)
                [] true)
             (indent + 1) ("<dc:title>{}</dc:title>" +:+ nl)
             [str (escape (File.title f))] (truthy (File.title f)))
          (indent + 1) ("<link:type>{}</link:type>" +:+ nl)
          [str (File.mimetype f)] (truthy (File.mimetype f)))
       (indent + 1)
       ("<rdf:resource rdf:resource=" +:+ dq +:+ "{}" +:+ dq +:+ "/>" +:+ nl)
       [str (escape (Some path))] true)
    indent ("</z:Attachment>" +:+ nl) [] true
  = buf +:+ attachment_fragment indent f path.
Proof.
  rewrite 5 (write_app (write _ _ _ _ _)), (write_app buf).
  rewrite !write_text, !write_conditional. unfold attachment_fragment, format.
  destruct (truthy (File.title f)), (truthy (File.mimetype f));
    by repeat (progress (rewrite ?append_assoc; simpl)).
Qed.

Ltac run_output_file :=
  unfold output_file, bind, try_except, file_exists,
    file_has_externalannotations, self_path, logging_debug, op_exists,
    os_stat_st_size, file_embed_annotations, os_remove, logging_error,
    ret, raise.

(** What [output_file] does when no conversion is asked for. *)
Lemma output_file_noconvert_run self f buf indent w :
  File.exists_ f (fs w) = true ->
  annotate self && File.has_externalannotations f (fs w) = false ->
  output_file self buf f indent w
  = (w, Ok (buf +:+ attachment_fragment indent f (File.path f), true)).
Proof.
  intros Hex Hno. run_output_file. rewrite Hex. cbn [negb].
  destruct (annotate self); cbn [andb] in Hno; rewrite ?Hno;
    refine (f_equal (fun b => (w, Ok (b, true))) (attachment_buffer _ _ _ _)).
Qed.

(** X7. For a file that exists, when [annotate] is off or the file has no
    external annotations, [output_file] emits the attachment with the
    original path of the file and leaves the world as it is: no file is
    written, removed or embedded, nothing is logged. *)
Theorem output_file_references_the_original self f buf indent w :
  File.exists_ f (fs w) = true ->
  annotate self && File.has_externalannotations f (fs w) = false ->
  output_file self buf f indent w
  = (w, Ok (buf +:+ attachment_fragment indent f (File.path f), true)).
Proof. apply output_file_noconvert_run. Qed.

(** A run of the theorem: the exporter of [__init__] does not annotate. *)
Lemma output_file_references_the_original_witness :
  output_file Exporter_init EmptyString (annotated_pdf None) 1 empty_world
  = (empty_world,
     Ok (EmptyString
         +:+ attachment_fragment 1 (annotated_pdf None)
               (File.path (annotated_pdf None)), true)).
Proof.
  apply (output_file_references_the_original Exporter_init
           (annotated_pdf None) EmptyString 1 empty_world);
    reflexivity.
Defined.

(** What [output_file] does when the embedding operation is invoked and
    returns normally. *)
Lemma output_file_embed_run self f buf indent w dir files' :
  annotate self = true ->
  path self = Some dir ->
  File.exists_ f (fs w) = true ->
  File.has_externalannotations f (fs w) = true ->
  from_option String.length 0 (fs w !! destination dir f) = 0 ->
  File.embed_annotations f (destination dir f) (fs w) = (files', None) ->
  output_file self buf f indent w
  = (set_embedded (embedded w ++ [(File.uuid f, destination dir f)])
       (set_fs files'
          (set_log
             (log w
              ++ [mkLogRecord DEBUG "Writing annotated PDF [%s] from [%s]"
                    [ArgStr (destination dir f); ArgStr (File.path f)]])
             w)),
     Ok (buf +:+ attachment_fragment indent f (destination dir f), true)).
Proof.
  intros Hann Hdir Hex Hext Hsize Hembed. run_output_file.
  fold (destination dir f).
  rewrite Hex, Hann. cbn [negb]. rewrite Hext, Hdir.
  fold (destination dir f). cbn [fs set_log set_fs set_embedded].
  destruct (fs w !! destination dir f) as [[|c content]|] eqn:E;
    [|discriminate Hsize|];
    repeat (first [rewrite E | rewrite Hembed | progress cbn]);
    refine (f_equal (fun b => (_, Ok (b, true))) (attachment_buffer _ _ _ _)).
Qed.

(** What [output_file] does when the destination exists and is not
    empty. *)
Lemma output_file_reuse_run self f buf indent w dir c content :
  annotate self = true ->
  path self = Some dir ->
  File.exists_ f (fs w) = true ->
  File.has_externalannotations f (fs w) = true ->
  fs w !! destination dir f = Some (String c content) ->
  output_file self buf f indent w
  = (set_log
       (log w
        ++ [mkLogRecord DEBUG "Writing annotated PDF [%s] from [%s]"
              [ArgStr (destination dir f); ArgStr (File.path f)]])
       w,
     Ok (buf +:+ attachment_fragment indent f (destination dir f), true)).
Proof.
  intros Hann Hdir Hex Hext E. run_output_file.
  fold (destination dir f).
  rewrite Hex, Hann. cbn [negb]. rewrite Hext, Hdir.
  fold (destination dir f). cbn [fs set_log set_fs set_embedded].
  repeat (first [rewrite E | progress cbn]).
  refine (f_equal (fun b => (_, Ok (b, true))) (attachment_buffer _ _ _ _)).
Qed.

(** X8. When [annotate] is on, the file has external annotations, the
    destination is absent or empty and the embedding operation returns
    normally, [output_file] invokes it once with the destination, keeps the
    files it leaves, logs one debug record and emits the attachment with
    the destination as its resource. *)
Theorem embedding_success_references_the_copy self f buf indent w dir files' :
  annotate self = true ->
  path self = Some dir ->
  File.exists_ f (fs w) = true ->
  File.has_externalannotations f (fs w) = true ->
  from_option String.length 0 (fs w !! destination dir f) = 0 ->
  File.embed_annotations f (destination dir f) (fs w) = (files', None) ->
  let r := output_file self buf f indent w in
  snd r = Ok (buf +:+ attachment_fragment indent f (destination dir f), true)
  /\ fs (fst r) = files'
  /\ embedded (fst r) = embedded w ++ [(File.uuid f, destination dir f)]
  /\ log (fst r)
     = log w
       ++ [mkLogRecord DEBUG "Writing annotated PDF [%s] from [%s]"
             [ArgStr (destination dir f); ArgStr (File.path f)]]
  /\ out (fst r) = out w.
Proof.
  intros Hann Hdir Hex Hext Hsize Hembed r. subst r.
  by rewrite (output_file_embed_run _ _ _ _ _ _ _ Hann Hdir Hex Hext Hsize
                Hembed).
Qed.

(** A run of the theorem: the embedding writes the copy and succeeds. *)
Lemma embedding_success_references_the_copy_witness :
  let f := annotated_pdf None in
  let r := output_file (annotating false) EmptyString f 1 empty_world in
  snd r = Ok (EmptyString +:+ attachment_fragment 1 f (destination "out" f),
              true)
  /\ fs (fst r) = <[destination "out" f := "%PDF"]> ∅
  /\ embedded (fst r)
     = embedded empty_world ++ [(File.uuid f, destination "out" f)]
  /\ log (fst r)
     = log empty_world
       ++ [mkLogRecord DEBUG "Writing annotated PDF [%s] from [%s]"
             [ArgStr (destination "out" f); ArgStr (File.path f)]]
  /\ out (fst r) = out empty_world.
Proof.
  apply (embedding_success_references_the_copy (annotating false)
           (annotated_pdf None) EmptyString 1 empty_world "out"
           (<[destination "out" (annotated_pdf None) := "%PDF"]> ∅));
    reflexivity.
Defined.

(** X9. Running [output_file] again after a successful embedding that left
    a copy that is not empty, on a file that still exists and still has its
    annotations: the embedding operation is not invoked a second time, the
    files are untouched and the same attachment fragment is returned. *)
Theorem second_run_reuses_the_copy self f buf indent w dir files' c content :
  annotate self = true ->
  path self = Some dir ->
  File.exists_ f (fs w) = true ->
  File.has_externalannotations f (fs w) = true ->
  from_option String.length 0 (fs w !! destination dir f) = 0 ->
  File.embed_annotations f (destination dir f) (fs w) = (files', None) ->
  files' !! destination dir f = Some (String c content) ->
  File.exists_ f files' = true ->
  File.has_externalannotations f files' = true ->
  let r1 := output_file self buf f indent w in
  let r2 := output_file self buf f indent (fst r1) in
  snd r2 = snd r1
  /\ fs (fst r2) = fs (fst r1)
  /\ embedded (fst r2) = embedded (fst r1)
  /\ length (embedded (fst r2)) = length (embedded w) + 1.
Proof.
  intros Hann Hdir Hex Hext Hsize Hembed Hcopy Hex' Hext' r1 r2.
  subst r1 r2.
  rewrite (output_file_embed_run _ _ _ _ _ _ _ Hann Hdir Hex Hext Hsize
             Hembed).
  cbn [fst snd].
  erewrite output_file_reuse_run by (cbn [fs set_embedded set_fs]; eassumption).
  cbn [fst snd fs embedded set_log set_embedded set_fs].
  repeat split. rewrite length_app. reflexivity.
Qed.

(** A run of the theorem. *)
Lemma second_run_reuses_the_copy_witness :
  let f := annotated_pdf None in
  let r1 := output_file (annotating false) EmptyString f 1 empty_world in
  let r2 := output_file (annotating false) EmptyString f 1 (fst r1) in
  snd r2 = snd r1
  /\ fs (fst r2) = fs (fst r1)
  /\ embedded (fst r2) = embedded (fst r1)
  /\ length (embedded (fst r2)) = length (embedded empty_world) + 1.
Proof.
  apply (second_run_reuses_the_copy (annotating false) (annotated_pdf None)
           EmptyString 1 empty_world "out"
           (<[destination "out" (annotated_pdf None) := "%PDF"]> ∅)
           "%" "PDF");
    reflexivity.
Defined.

(** * What an export without annotation leaves alone *)

Lemma only_out_ret {A} (a : A) : only_out (ret a).
Proof. intros w. exists (out w). simpl. by rewrite set_out_out. Qed.

Lemma only_out_raise {A} (e : Exn) : only_out (@raise A e).
Proof. intros w. exists (out w). simpl. by rewrite set_out_out. Qed.

Lemma only_out_bind {A B} (m : M A) (k : A -> M B) :
  only_out m -> (forall a, only_out (k a)) -> only_out (bind m k).
Proof.
  intros Hm Hk w. unfold bind. destruct (Hm w) as [s Hs].
  destruct (m w) as [w1 [a|e]]; simpl in Hs; subst w1.
  - destruct (Hk a (set_out s w)) as [s' Hs']. exists s'. by rewrite Hs'.
  - by exists s.
Qed.

Lemma emits_only_out m s : emits m s -> only_out m.
Proof. intros H w. rewrite H. by eexists. Qed.

Lemma only_out_for {A} (l : list A) body :
  (forall x, only_out (body x)) -> only_out (for_ l body).
Proof.
  intros H. induction l as [|x l IH]; simpl.
  - apply only_out_ret.
  - by apply only_out_bind.
Qed.

Lemma only_out_f_write i s objs c : only_out (f_write i s objs c).
Proof. eapply emits_only_out, emits_f_write. Qed.

Lemma only_out_f_write_raw s : only_out (f_write_raw s).
Proof. eapply emits_only_out, emits_f_write_raw. Qed.

Lemma only_out_output_author self a indent :
  only_out (output_author self a indent).
Proof. eapply emits_only_out, output_author_text. Qed.

Lemma only_out_ZTYPE_getitem key : only_out (ZTYPE_getitem key).
Proof.
  unfold ZTYPE_getitem.
  destruct (ZTYPE !! key); [apply only_out_ret | apply only_out_raise].
Qed.

Lemma only_out_output_file self buf f indent :
  annotate self = false -> only_out (output_file self buf f indent).
Proof.
  intros Hann w. exists (out w). rewrite set_out_out.
  destruct (File.exists_ f (fs w)) eqn:Hex.
  - rewrite (output_file_noconvert_run self f buf indent w Hex); [done|].
    by rewrite Hann.
  - by rewrite output_file_missing.
Qed.

Lemma only_out_output_files self files indent buf atts :
  annotate self = false ->
  only_out (output_files self files indent buf atts).
Proof.
  intros Hann. revert buf atts.
  induction files as [|f files IH]; intros buf atts; simpl.
  - apply only_out_ret.
  - apply only_out_bind; [by apply only_out_output_file|].
    intros [buf' ok]. apply IH.
Qed.

Create HintDb only_out.
#[local] Hint Resolve only_out_f_write only_out_f_write_raw
  only_out_output_author only_out_ZTYPE_getitem only_out_output_files
  only_out_ret only_out_raise : only_out.

Ltac only_out_tac :=
  repeat first
    [ progress intros
    | apply only_out_bind
    | apply only_out_for
    | match goal with
      | |- only_out (if ?b then _ else _) => destruct b
      | |- only_out (let '(_, _) := ?r in _) => destruct r
      | |- only_out (match ?x with Some _ => _ | None => _ end) =>
          destruct x eqn:?
      | |- only_out (match ?x with [] => _ | _ :: _ => _ end) =>
          destruct x eqn:?
      end
    | solve [eauto with only_out] ].

Lemma only_out_output_paper self p :
  annotate self = false -> forall indent, only_out (output_paper self p indent).
Proof.
  intros Hann. induction p as [p IH] using Publication_container_ind.
  intros indent. rewrite output_paper_unfold. unfold output_paper_body.
  only_out_tac.
Qed.

Lemma only_out_output_collection self c indent :
  only_out (output_collection self c indent).
Proof. unfold output_collection. only_out_tac. Qed.

(** X10. Without [annotate], an export changes one file only, the document
    at [path] with the suffix [.rdf], which holds what was written to the
    stream; no embedding is invoked and nothing is logged, whether the
    export ends normally or by an exception. *)
Theorem export_without_annotate_writes_one_file self path pubs colls w :
  annotate self = false ->
  let w' := fst (export self path pubs colls w) in
  fs w' = <[path +:+ ".rdf" := out w']> (fs w)
  /\ embedded w' = embedded w
  /\ log w' = log w.
Proof.
  intros Hann w'. subst w'. unfold export.
  assert (annotate (set_path (Some path) self) = false) as Hann' by done.
  rewrite Hann', bind_ret_l. unfold with_open.
  match goal with
  | |- context [let '(_, _) := ?m (open_wt ?n w) in _] =>
      assert (only_out m) as Hbody
  end.
  { only_out_tac;
      first [by apply only_out_output_paper
            | apply only_out_output_collection]. }
  match goal with
  | |- context [let '(_, _) := ?m (open_wt ?n w) in _] =>
      destruct (Hbody (open_wt n w)) as [s Hs];
      destruct (m (open_wt n w)) as [w1 r]
  end.
  simpl in Hs. subst w1. cbn. by rewrite insert_insert_eq.
Qed.

(** A run of the theorem on the three sample publications, the second of
    which aborts the export. *)
Lemma export_without_annotate_writes_one_file_witness :
  let w' :=
    fst (export Exporter_init "lib" [study; leaflet; handbook] []
           empty_world) in
  fs w' = <["lib" +:+ ".rdf" := out w']> (fs empty_world)
  /\ embedded w' = embedded empty_world
  /\ log w' = log empty_world.
Proof.
  apply (export_without_annotate_writes_one_file Exporter_init "lib"
           [study; leaflet; handbook] [] empty_world).
  reflexivity.
Defined.

(** * How often the embedding operation is invoked *)

Lemma only_out_embeds_at_most {A} (m : M A) n :
  only_out m -> embeds_at_most n m.
Proof.
  intros H w. destruct (H w) as [s ->]. exists []. simpl.
  split; [by rewrite app_nil_r | lia].
Qed.

Lemma embeds_at_most_le {A} (m : M A) n n' :
  n <= n' -> embeds_at_most n m -> embeds_at_most n' m.
Proof.
  intros Hle H w. destruct (H w) as (calls & E & Hlen).
  exists calls. split; [done | lia].
Qed.

Lemma embeds_at_most_bind {A B} (m : M A) (k : A -> M B) n n' :
  embeds_at_most n m -> (forall a, embeds_at_most n' (k a)) ->
  embeds_at_most (n + n') (bind m k).
Proof.
  intros Hm Hk w. unfold bind. destruct (Hm w) as (calls & E & Hlen).
  destruct (m w) as [w1 [a|e]]; simpl in E.
  - destruct (Hk a w1) as (calls' & E' & Hlen').
    exists (calls ++ calls'). rewrite E', E, app_assoc, length_app.
    split; [done | lia].
  - exists calls. simpl. split; [done | lia].
Qed.

Lemma embeds_at_most_try_except {A} (m : M A) (h : Exn -> M A) n n' :
  embeds_at_most n m -> (forall e, embeds_at_most n' (h e)) ->
  embeds_at_most (n + n') (try_except m h).
Proof.
  intros Hm Hh w. unfold try_except. destruct (Hm w) as (calls & E & Hlen).
  destruct (m w) as [w1 [a|e]]; simpl in E.
  - exists calls. simpl. split; [done | lia].
  - destruct (Hh e w1) as (calls' & E' & Hlen').
    exists (calls ++ calls'). rewrite E', E, app_assoc, length_app.
    split; [done | lia].
Qed.

Lemma embeds_at_most_if {A} (b : bool) (m1 m2 : M A) n n' :
  embeds_at_most n m1 -> embeds_at_most n' m2 ->
  embeds_at_most (n + n') (if b then m1 else m2).
Proof.
  intros H1 H2. destruct b; eapply embeds_at_most_le; try eassumption; lia.
Qed.

(** An action that leaves the record of calls as it is. *)
Lemma embeds_none {A} (m : M A) :
  (forall w, embedded (fst (m w)) = embedded w) -> embeds_at_most 0 m.
Proof.
  intros H w. exists []. by rewrite H, app_nil_r.
Qed.

Lemma embeds_at_most_file_embed_annotations f p :
  embeds_at_most 1 (file_embed_annotations f p).
Proof.
  intros w. exists [(File.uuid f, p)]. unfold file_embed_annotations.
  by destruct (File.embed_annotations f p (fs w)) as [fs' [e|]].
Qed.

Ltac embeds_none_tac :=
  apply embeds_none; intros ?;
  unfold ret, raise, logging_debug, logging_error, op_exists,
    os_stat_st_size, os_remove, self_path, file_exists,
    file_has_externalannotations, ret, raise;
  repeat case_match; reflexivity.

Ltac embeds_tac :=
  repeat first
    [ progress intros
    | apply embeds_at_most_bind
    | apply embeds_at_most_try_except
    | apply embeds_at_most_if
    | apply embeds_at_most_file_embed_annotations
    | embeds_none_tac ].

Lemma embeds_at_most_output_file self buf f indent :
  embeds_at_most 1 (output_file self buf f indent).
Proof.
  eapply embeds_at_most_le; [|unfold output_file; embeds_tac].
  simpl. lia.
Qed.

Lemma embeds_at_most_output_files self files indent buf atts :
  embeds_at_most (length files) (output_files self files indent buf atts).
Proof.
  revert buf atts. induction files as [|f files IH]; intros buf atts.
  - embeds_none_tac.
  - cbn [output_files length].
    apply (embeds_at_most_bind _ _ 1 (length files)).
    + apply embeds_at_most_output_file.
    + intros [buf' ok]. apply IH.
Qed.

Lemma count_files_unfold p :
  count_files p
  = length (Publication.files p)
    + match Publication.container p with
      | Some c => count_files c
      | None => 0
      end.
Proof. by destruct p. Qed.

Ltac paper_embeds_tac IH :=
  repeat first
    [ progress intros
    | apply (only_out_embeds_at_most _ 0); solve [only_out_tac]
    | apply IH; reflexivity
    | apply embeds_at_most_bind
    | apply embeds_at_most_if ].

Lemma embeds_at_most_output_paper self p :
  forall indent, embeds_at_most (count_files p) (output_paper self p indent).
Proof.
  induction p as [p IH] using Publication_container_ind. intros indent.
  rewrite output_paper_unfold, count_files_unfold. unfold output_paper_body.
  destruct (Publication.container p) as [c|] eqn:Ec; cbv beta iota.
  - eapply embeds_at_most_le;
      [|apply embeds_at_most_bind;
         [apply embeds_at_most_output_files
         |intros [buf atts]; paper_embeds_tac IH]].
    simpl. lia.
  - eapply embeds_at_most_le;
      [|apply embeds_at_most_bind;
         [apply embeds_at_most_output_files
         |intros [buf atts]; paper_embeds_tac IH]].
    simpl. lia.
Qed.

Lemma embeds_from_nil {A} self files (m : M A) :
  (forall w, embedded (fst (m w)) = embedded w) -> embeds_from self files m.
Proof.
  intros H w. exists []. split; [apply sublist_nil_l|].
  by rewrite H, app_nil_r.
Qed.

Lemma embeds_from_only_out {A} self files (m : M A) :
  only_out m -> embeds_from self files m.
Proof.
  intros H. apply embeds_from_nil. intros w. by destruct (H w) as [s ->].
Qed.

Lemma embeds_from_bind {A B} self l1 l2 (m : M A) (k : A -> M B) :
  embeds_from self l1 m -> (forall a, embeds_from self l2 (k a)) ->
  embeds_from self (l1 ++ l2) (bind m k).
Proof.
  intros Hm Hk w. unfold bind. destruct (Hm w) as (c1 & S1 & E1).
  destruct (m w) as [w1 [a|e]]; simpl in E1.
  - destruct (Hk a w1) as (c2 & S2 & E2). exists (c1 ++ c2).
    split; [by apply sublist_app|].
    by rewrite E2, E1, map_app, app_assoc.
  - exists c1. split; [by apply sublist_inserts_r | done].
Qed.

Lemma embeds_from_bind_l {A B} self l (m : M A) (k : A -> M B) :
  (forall w, embedded (fst (m w)) = embedded w) ->
  (forall a, embeds_from self l (k a)) ->
  embeds_from self l (bind m k).
Proof.
  intros Hm Hk. apply (embeds_from_bind self [] l); [|done].
  by apply embeds_from_nil.
Qed.

Lemma embeds_from_bind_r {A B} self l (m : M A) (k : A -> M B) :
  embeds_from self l m ->
  (forall a w, embedded (fst (k a w)) = embedded w) ->
  embeds_from self l (bind m k).
Proof.
  intros Hm Hk. rewrite <- (app_nil_r l).
  apply embeds_from_bind; [done|]. intros a. by apply embeds_from_nil.
Qed.

Lemma embeds_from_try_except {A} self l (m : M A) (h : Exn -> M A) :
  embeds_from self l m ->
  (forall e w, embedded (fst (h e w)) = embedded w) ->
  embeds_from self l (try_except m h).
Proof.
  intros Hm Hh w. unfold try_except. destruct (Hm w) as (c & S & E).
  destruct (m w) as [w1 [a|e]]; simpl in E.
  - by exists c.
  - exists c. split; [done|]. by rewrite Hh.
Qed.

Ltac keeps_embedded_tac :=
  intros;
  unfold bind, ret, raise, logging_debug, logging_error, op_exists,
    os_stat_st_size, os_remove, self_path, file_exists,
    file_has_externalannotations;
  repeat case_match; simplify_eq/=; reflexivity.

(** The only call [output_file] can add is the call for its file. *)
Lemma embeds_from_output_file self buf f indent :
  embeds_from self [f] (output_file self buf f indent).
Proof.
  unfold output_file.
  apply embeds_from_bind_l; [keeps_embedded_tac|]. intros ex.
  destruct (negb ex); [apply embeds_from_nil; keeps_embedded_tac|].
  apply embeds_from_bind_l; [keeps_embedded_tac|]. intros convert.
  apply embeds_from_bind_r; [|keeps_embedded_tac].
  destruct convert; [|apply embeds_from_nil; keeps_embedded_tac].
  unfold self_path.
  destruct (path self) as [dir|] eqn:Hdir;
    [|apply embeds_from_nil; keeps_embedded_tac].
  rewrite bind_ret_l. fold (destination dir f).
  apply embeds_from_try_except; [|keeps_embedded_tac].
  apply embeds_from_bind_l; [keeps_embedded_tac|]. intros _.
  apply embeds_from_bind_l; [keeps_embedded_tac|]. intros present.
  apply embeds_from_bind_l; [keeps_embedded_tac|]. intros needed.
  apply embeds_from_bind_r; [|keeps_embedded_tac].
  destruct needed; [|apply embeds_from_nil; keeps_embedded_tac].
  intros w. exists [f]. split; [done|].
  unfold file_embed_annotations, embedding_call. rewrite Hdir.
  by destruct (File.embed_annotations f (destination dir f) (fs w))
    as [fs' [e|]].
Qed.

Lemma embeds_from_output_files self files indent buf atts :
  embeds_from self files (output_files self files indent buf atts).
Proof.
  revert buf atts. induction files as [|f files IH]; intros buf atts.
  - apply embeds_from_nil. keeps_embedded_tac.
  - cbn [output_files].
    apply (embeds_from_bind self [f] files).
    + apply embeds_from_output_file.
    + intros [buf' ok]. apply IH.
Qed.

Lemma all_files_unfold p :
  all_files p
  = Publication.files p
    ++ match Publication.container p with
       | Some c => all_files c
       | None => []
       end.
Proof. by destruct p. Qed.

Lemma length_all_files p : length (all_files p) = count_files p.
Proof.
  induction p as [p IH] using Publication_container_ind.
  rewrite all_files_unfold, count_files_unfold, length_app.
  destruct (Publication.container p) as [c|] eqn:Ec; [|done].
  by rewrite (IH c).
Qed.

Lemma only_out_keeps_embedded {A} (m : M A) :
  only_out m -> forall w, embedded (fst (m w)) = embedded w.
Proof. intros H w. by destruct (H w) as [s ->]. Qed.

Ltac paper_from_tac :=
  repeat (apply embeds_from_bind_l;
          [apply only_out_keeps_embedded; solve [only_out_tac] | intros ?]).

Lemma embeds_from_output_paper self p :
  forall indent,
    embeds_from self (all_files p) (output_paper self p indent).
Proof.
  induction p as [p IH] using Publication_container_ind. intros indent.
  rewrite output_paper_unfold, all_files_unfold. unfold output_paper_body.
  apply embeds_from_bind; [apply embeds_from_output_files|].
  intros [buf atts].
  destruct (Publication.container p) as [c|] eqn:Ec; cbv beta iota.
  - paper_from_tac.
    apply embeds_from_bind_r;
      [|intros; apply only_out_keeps_embedded; solve [only_out_tac]].
    destruct (embed_container self);
      [|apply embeds_from_only_out; solve [only_out_tac]].
    apply embeds_from_bind_l;
      [apply only_out_keeps_embedded; solve [only_out_tac] | intros ?].
    apply embeds_from_bind_r;
      [|intros; apply only_out_keeps_embedded; solve [only_out_tac]].
    by apply IH.
  - apply embeds_from_only_out. only_out_tac.
Qed.

(** X11. Serializing a publication invokes the embedding operation at most
    once for each file of the publication and of its chain of containers:
    the calls it adds to the record, the earlier ones being kept, are the
    calls for some of these files, each file of the lists being taken at
    most once and in the order of the lists, with its identifier and its
    destination under the export directory. *)
Theorem serialization_embeds_each_file_at_most_once self p indent w :
  exists embedded_files,
    sublist embedded_files (all_files p)
    /\ embedded (fst (output_paper self p indent w))
       = embedded w ++ map (embedding_call self) embedded_files
    /\ length embedded_files <= count_files p.
Proof.
  destruct (embeds_from_output_paper self p indent w) as (l & Hsub & E).
  exists l. split; [done|]. split; [done|].
  rewrite <- length_all_files. by apply sublist_length.
Qed.

(** * Collections and the envelope *)

Lemma concat_text_map {A B} (g : A -> B) (text : B -> string) l :
  concat_text text (map g l) = concat_text (fun x => text (g x)) l.
Proof. induction l as [|x l IH]; simpl; [done | by rewrite IH]. Qed.

(** What [output_collection] appends. *)
Lemma output_collection_text self c indent :
  emits (output_collection self c indent)
    (collection_fragment indent (Collection.uuid c) (Collection.name c)
       (map Collection.uuid (Collection.children c))
       (map Publication.uuid (Collection.publications c))).
Proof.
  unfold output_collection, collection_fragment. rewrite !concat_text_map.
  eapply emits_eq.
  { apply emits_bind; [apply emits_f_write|].
    apply emits_bind; [apply emits_f_write|].
    apply emits_bind;
      [apply (emits_for _ _
                (fun c0 => part_line (indent + 1) (Collection.uuid c0)))|].
    { intros c0. eapply emits_eq; [apply emits_f_write|].
      rewrite write_text. unfold part_line, format.
      by repeat (progress (rewrite ?append_assoc; simpl)). }
    apply emits_bind;
      [apply (emits_for _ _
                (fun p => part_line (indent + 1) (Publication.uuid p)))|].
    { intros p. eapply emits_eq; [apply emits_f_write|].
      rewrite write_text. unfold part_line, format.
      by repeat (progress (rewrite ?append_assoc; simpl)). }
    apply emits_f_write. }
  rewrite !write_text. unfold format.
  by repeat (progress (rewrite ?append_assoc; simpl)).
Qed.

(** X12. [output_collection] always returns normally and changes nothing
    but the primary output; what it appends is made of the identifier and
    the name of the collection and of the identifiers of its children and
    of its members, in that order: nothing else of a child or of a member
    is read. *)
Theorem output_collection_writes_references_only self c indent w :
  output_collection self c indent w
  = (set_out
       (out w
        +:+ collection_fragment indent (Collection.uuid c) (Collection.name c)
              (map Collection.uuid (Collection.children c))
              (map Publication.uuid (Collection.publications c)))
       w,
     Ok tt).
Proof. apply output_collection_text. Qed.

Lemma extends_output_collection self c indent :
  extends (output_collection self c indent).
Proof. unfold output_collection. extends_tac. Qed.

(** When [m] ends normally, what it appended ends with [s]. *)
Lemma bind_ends {A} (m : M A) (k : A -> M unit) s w w' :
  extends m ->
  (forall a w1 w2, k a w1 = (w2, Ok tt) ->
     exists pre, out w2 = out w1 +:+ pre +:+ s) ->
  bind m k w = (w', Ok tt) ->
  exists pre, out w' = out w +:+ pre +:+ s.
Proof.
  intros Hm Hk H. apply bind_inv_ok in H as (w1 & a & H1 & H2).
  destruct (Hm w) as [x Hx]. rewrite H1 in Hx. simpl in Hx.
  destruct (Hk a w1 w' H2) as [pre E].
  exists (x +:+ pre). by rewrite E, Hx, !append_assoc.
Qed.

(** X13. When [export] returns normally, the document begins with the
    envelope header, the fragments of the collections come after everything
    the publications wrote, in order, and the closing tag of the envelope
    ends the document; the file at [path] with the suffix [.rdf] holds
    exactly that document. *)
Theorem export_writes_a_closed_envelope self path pubs colls w w' :
  export self path pubs colls w = (w', Ok tt) ->
  (exists body,
     out w'
     = RDF_HEADER +:+ body
       +:+ concat_text
             (fun c =>
                collection_fragment 1 (Collection.uuid c) (Collection.name c)
                  (map Collection.uuid (Collection.children c))
                  (map Publication.uuid (Collection.publications c)))
             colls
       +:+ "</rdf:RDF>" +:+ nl)
  /\ fs w' !! (path +:+ ".rdf") = Some (out w').
Proof.
  unfold export.
  assert ((if annotate (set_path (Some path) self)
           then os_makedirs path else ret tt) = ret tt) as ->
    by (by destruct (annotate _)).
  rewrite bind_ret_l. unfold with_open.
  match goal with
  | |- context [let '(_, _) := ?m ?w0 in _] =>
      destruct (m w0) as [w1 r] eqn:Hbody
  end.
  intros [= <- ->]. split; [|by apply lookup_insert_eq].
  change (out (close (path +:+ ".rdf") w1)) with (out w1).
  rewrite (bind_emits _ _ _ _ (emits_f_write_raw RDF_HEADER)) in Hbody.
  eapply bind_ends in Hbody as [pre Hpre].
  - exists pre. rewrite Hpre. reflexivity.
  - apply extends_for. intros p. apply extends_output_paper.
  - intros _ w2 w3 H. exists EmptyString.
    rewrite (emits_bind _ _ _ _
               (emits_for colls _ _
                  (fun c => output_collection_text _ c 1))
               (emits_f_write_raw _)) in H.
    injection H as <-. reflexivity.
Qed.

(** A run of the theorem on two publications and a collection. *)
Lemma export_writes_a_closed_envelope_witness :
  let w' :=
    fst (export Exporter_init "lib" [study; handbook] [shelf] empty_world) in
  (exists body,
     out w'
     = RDF_HEADER +:+ body
       +:+ concat_text
             (fun c =>
                collection_fragment 1 (Collection.uuid c) (Collection.name c)
                  (map Collection.uuid (Collection.children c))
                  (map Publication.uuid (Collection.publications c)))
             [shelf]
       +:+ "</rdf:RDF>" +:+ nl)
  /\ fs w' !! ("lib" +:+ ".rdf") = Some (out w').
Proof.
  apply (export_writes_a_closed_envelope Exporter_init "lib"
           [study; handbook] [shelf] empty_world).
  vm_compute. reflexivity.
Defined.

(** * What the serialization of a publication depends on *)

Lemma bind_cong {A B} (m m' : M A) (k k' : A -> M B) w :
  m w = m' w -> (forall a w1, k a w1 = k' a w1) ->
  bind m k w = bind m' k' w.
Proof.
  intros Hm Hk. unfold bind. rewrite Hm.
  destruct (m' w) as [w1 [a|e]]; [apply Hk | done].
Qed.

Lemma for_cong {A} (l : list A) body body' w :
  (forall x w1, body x w1 = body' x w1) ->
  for_ l body w = for_ l body' w.
Proof.
  intros H. revert w. induction l as [|x l IH]; intros w; [done|].
  cbn [for_]. apply bind_cong; [apply H | intros _ w1; apply IH].
Qed.

Ltac cong_tac :=
  repeat first
    [ reflexivity
    | progress intros
    | apply bind_cong
    | match goal with
      | |- (let '(_, _) := ?r in _) _ = _ => destruct r
      end ].

Lemma output_files_ignores_overwrite self b files indent buf atts w :
  output_files (set_overwrite b self) files indent buf atts w
  = output_files self files indent buf atts w.
Proof.
  revert buf atts w. induction files as [|f files IH]; intros buf atts w.
  - reflexivity.
  - cbn [output_files]. apply bind_cong; [reflexivity|].
    intros [buf' ok] w1. apply IH.
Qed.

Lemma output_paper_ignores_overwrite self b p :
  forall indent w,
    output_paper (set_overwrite b self) p indent w
    = output_paper self p indent w.
Proof.
  induction p as [p IH] using Publication_container_ind. intros indent w.
  rewrite !output_paper_unfold. unfold output_paper_body.
  apply bind_cong; [apply output_files_ignores_overwrite|].
  intros [appendout attachments] w1.
  destruct (Publication.container p) as [c|] eqn:Ec; [|reflexivity].
  change (embed_container (set_overwrite b self)) with (embed_container self).
  destruct (embed_container self); [|reflexivity].
  cong_tac. by apply IH.
Qed.

(** X14. The [overwrite] option has no effect on an export: whatever its
    value, [export] returns the same result and leaves the same world. *)
Theorem export_ignores_overwrite self b path pubs colls w :
  export (set_overwrite b self) path pubs colls w
  = export self path pubs colls w.
Proof.
  unfold export.
  change (set_path (Some path) (set_overwrite b self))
    with (set_overwrite b (set_path (Some path) self)).
  change (annotate (set_overwrite b (set_path (Some path) self)))
    with (annotate (set_path (Some path) self)).
  apply bind_cong; [reflexivity|]. intros _ w1. unfold with_open.
  match goal with
  | |- (let '(_, _) := ?m ?x in _) = (let '(_, _) := ?m' ?x in _) =>
      assert (m x = m' x) as ->; [|reflexivity]
  end.
  apply bind_cong; [reflexivity|]. intros _ w2.
  apply bind_cong; [|reflexivity].
  apply for_cong. intros p w3. apply output_paper_ignores_overwrite.
Qed.

(** X15. With [embed_container] off, a publication refers to its container
    by identifier and nothing else of the container is read: two containers
    with the same identifier give the same result, whatever their types,
    files or own containers. *)
Theorem container_is_referenced_by_identifier self p c1 c2 indent w :
  embed_container self = false ->
  Publication.uuid c1 = Publication.uuid c2 ->
  output_paper self (set_container (Some c1) p) indent w
  = output_paper self (set_container (Some c2) p) indent w.
Proof.
  intros Hec Huuid. rewrite !output_paper_unfold. unfold output_paper_body.
  cbn [set_container Publication.files Publication.type
       Publication.uuid Publication.authors Publication.title
       Publication.abstract Publication.volume Publication.number
       Publication.doi Publication.pages Publication.keywords
       Publication.read Publication.container Publication.date
       Publication.creationdate Publication.notes].
  rewrite Hec. cbv beta iota. by rewrite Huuid.
Qed.

(** A run of the theorem: the study and a leaflet of unknown type under
    the same identifier. *)
Lemma container_is_referenced_by_identifier_witness :
  let self := mkExporter false false None false in
  let pamphlet :=
    Publication.mk "p1" "pamphlet" None None None None None None [] false
      None EmptyString None [] [] [] in
  output_paper self (set_container (Some study) handbook) 1 empty_world
  = output_paper self (set_container (Some pamphlet) handbook) 1 empty_world.
Proof.
  apply (container_is_referenced_by_identifier
           (mkExporter false false None false) handbook study);
    reflexivity.
Defined.



Ltac unfold_papers :=
  rewrite !output_paper_unfold; unfold output_paper_body;
  cbn [set_container set_abstract set_number Publication.set_files
       Publication.files Publication.type
       Publication.uuid Publication.authors Publication.title
       Publication.abstract Publication.volume Publication.number
       Publication.doi Publication.pages Publication.keywords
       Publication.read Publication.container Publication.date
       Publication.creationdate Publication.notes].

Lemma f_write_false i s objs w : f_write i s objs false w = ret tt w.
Proof. unfold f_write, write, ret. by rewrite set_out_out. Qed.

(** X17. An abstract that is [None] or the empty string gives no
    [dcterms:abstract] element: the publication is serialized exactly as
    one without the attribute. *)
Theorem empty_abstract_is_omitted self p a indent w :
  truthy a = false ->
  output_paper self (set_abstract (Some a) p) indent w
  = output_paper self (set_abstract None p) indent w.
Proof.
  intros Ha. unfold_papers. rewrite Ha.
  apply bind_cong; [reflexivity|]. intros [appendout attachments] w1.
  do 5 (apply bind_cong; [reflexivity | intros ? ?]).
  apply bind_cong; [apply f_write_false | reflexivity].
Qed.

(** A run of the theorem on an empty abstract. *)
Lemma empty_abstract_is_omitted_witness :
  output_paper Exporter_init (set_abstract (Some (Some EmptyString)) study) 1
    empty_world
  = output_paper Exporter_init (set_abstract None study) 1 empty_world.
Proof.
  apply (empty_abstract_is_omitted Exporter_init study (Some EmptyString) 1
           empty_world).
  reflexivity.
Defined.

(** X18. Without a volume the number is not read: whatever its number, a
    publication whose volume is [None] is serialized in the same way, with
    no [prism:number] element. *)
Theorem number_is_ignored_without_volume self p n indent w :
  Publication.volume p = None ->
  output_paper self (set_number n p) indent w = output_paper self p indent w.
Proof.
  intros Hv. unfold_papers. rewrite Hv.
  rewrite (bool_decide_false (@None string <> None)) by (intros H; by apply H).
  reflexivity.
Qed.

(** A run of the theorem on the study, which has no volume. *)
Lemma number_is_ignored_without_volume_witness :
  output_paper Exporter_init (set_number (Some "12") study) 1 empty_world
  = output_paper Exporter_init study 1 empty_world.
Proof.
  apply (number_is_ignored_without_volume Exporter_init study (Some "12") 1
           empty_world).
  reflexivity.
Defined.

(** * Links, memos and the side buffer *)

Lemma ends_bind {A} (m : M A) k s :
  extends m -> (forall a, ends (k a) s) -> ends (bind m k) s.
Proof.
  intros Hm Hk w w' H. apply bind_inv_ok in H as (w1 & a & H1 & H2).
  destruct (Hm w) as [x Hx]. rewrite H1 in Hx. simpl in Hx.
  destruct (Hk a w1 w' H2) as [pre E].
  exists (x +:+ pre). by rewrite E, Hx, !append_assoc.
Qed.

Lemma emits_ends m s : emits m s -> ends m s.
Proof.
  intros H w w' E. rewrite H in E. injection E as <-.
  by exists EmptyString.
Qed.

(** X19. When a publication is serialized, what is appended to the primary
    output ends with the closing tag of the publication, then the memo
    fragments of its notes, in order, then the side buffer into which its
    attachments were resolved. *)
Theorem fragment_ends_with_memos_and_attachments self p indent w w' :
  output_paper self p indent w = (w', Ok tt) ->
  exists w1 buf atts pre,
    output_files self (Publication.files p) indent EmptyString [] w
      = (w1, Ok (buf, atts))
    /\ out w'
       = out w +:+ pre
         +:+ (repeat_str "  " indent +:+ "</bib:Article>" +:+ nl +:+ nl)
         +:+ concat_text (memo_fragment indent) (Publication.notes p)
         +:+ buf.
Proof.
  rewrite output_paper_unfold. unfold output_paper_body. intros H.
  apply bind_inv_ok in H as (w1 & [buf atts] & Hf & H).
  exists w1, buf, atts.
  pose proof (keeps_out_output_files self (Publication.files p) indent
                EmptyString [] w) as Hout. rewrite Hf in Hout. simpl in Hout.
  rewrite <- Hout.
  enough (exists pre, out w'
            = out w1 +:+ pre
              +:+ ((repeat_str "  " indent +:+ "</bib:Article>" +:+ nl +:+ nl)
                   +:+ concat_text (memo_fragment indent) (Publication.notes p)
                   +:+ buf)) as [pre Hpre].
  { exists pre. split; [done|]. by rewrite Hpre, !append_assoc. }
  revert H. generalize w1 w'.
  match goal with
  | |- forall w2 w3, ?m w2 = _ -> exists pre, _ = _ +:+ pre +:+ ?s =>
      change (ends m s)
  end.
  do 17 (apply ends_bind; [extends_tac | intros ?]).
  apply emits_ends. eapply emits_eq.
  { apply emits_bind; [apply emits_f_write|].
    apply emits_bind; [|apply emits_f_write_raw].
    apply (emits_for _ _ (memo_fragment indent)). intros n.
    eapply emits_eq; [emits_tac|].
    rewrite !write_text. unfold memo_fragment, format.
    by repeat (progress (rewrite ?append_assoc; simpl)). }
  rewrite write_text. unfold BIBTYPE. rewrite lookup_empty.
  unfold format. by repeat (progress (rewrite ?append_assoc; simpl)).
Qed.

(** A run of the theorem on the book with one note. *)
Lemma fragment_ends_with_memos_and_attachments_witness :
  exists w1 buf atts pre,
    output_files Exporter_init (Publication.files handbook) 0 EmptyString []
      empty_world
      = (w1, Ok (buf, atts))
    /\ out (fst (output_paper Exporter_init handbook 0 empty_world))
       = out empty_world +:+ pre
         +:+ (repeat_str "  " 0 +:+ "</bib:Article>" +:+ nl +:+ nl)
         +:+ concat_text (memo_fragment 0) (Publication.notes handbook)
         +:+ buf.
Proof.
  apply (fragment_ends_with_memos_and_attachments Exporter_init handbook 0
           empty_world).
  vm_compute. reflexivity.
Defined.

(** X20. Once the attachments of a publication are resolved and its type is
    known, the fragment holds one [link:link] element for each resolved
    attachment, in the order of resolution, the identifiers being
    escaped. *)
Theorem fragment_links_resolved_attachments self p indent w w1 buf atts z :
  output_files self (Publication.files p) indent EmptyString [] w
    = (w1, Ok (buf, atts)) ->
  ZTYPE !! Publication.type p = Some z ->
  exists pre post,
    out (fst (output_paper self p indent w))
    = out w +:+ pre +:+ concat_text (link_line (indent + 1)) atts +:+ post.
Proof.
  intros Hf Hz. rewrite output_paper_unfold.
  pose proof (keeps_out_output_files self (Publication.files p) indent
                EmptyString [] w) as Hout. rewrite Hf in Hout. simpl in Hout.
  rewrite <- Hout. unfold output_paper_body.
  erewrite bind_ok by exact Hf. cbv beta iota.
  rewrite (ZTYPE_getitem_known _ _ Hz), bind_ret_l.
  match goal with
  | |- exists pre post, out (fst (?m ?w)) = _ +:+ pre +:+ ?a +:+ post =>
      enough (includes m a) as Hm by apply Hm
  end.
  do 9 (eapply includes_bind_emits; [emits_tac|]).
  apply begins_includes, begins_emits_extends; [|extends_tac].
  apply (emits_for _ _ (link_line (indent + 1))). intros a.
  eapply emits_eq; [apply emits_f_write|].
  rewrite write_text. unfold link_line, format.
  by repeat (progress (rewrite ?append_assoc; simpl)).
Qed.

(** A run of the theorem: a file that exists, linked from the study. *)
Lemma fragment_links_resolved_attachments_witness :
  let p := Publication.set_files [annotated_pdf None] study in
  exists pre post,
    out (fst (output_paper Exporter_init p 1 empty_world))
    = out empty_world +:+ pre +:+ concat_text (link_line (1 + 1)) ["f:1"]
      +:+ post.
Proof.
  apply (fragment_links_resolved_attachments Exporter_init
           (Publication.set_files [annotated_pdf None] study) 1 empty_world
           empty_world
           (EmptyString
            +:+ attachment_fragment 1 (annotated_pdf None) "/lib/a.pdf")
           ["f:1"] "journalArticle");
    reflexivity.
Defined.

(** What [output_file] returns when it returns normally. *)
Lemma output_file_result self buf f indent w w' buf' ok :
  output_file self buf f indent w = (w', Ok (buf', ok)) ->
  (ok = false /\ buf' = buf)
  \/ (ok = true
      /\ exists path, buf' = buf +:+ attachment_fragment indent f path).
Proof.
  unfold output_file. intros H.
  apply bind_inv_ok in H as (w1 & ex & _ & H).
  destruct ex; cbn [negb] in H; [|left; by injection H as _ <- <-].
  apply bind_inv_ok in H as (w2 & convert & _ & H).
  apply bind_inv_ok in H as (w3 & path & _ & H).
  injection H as _ <- <-. right. split; [done|]. exists path.
  apply attachment_buffer.
Qed.

(** X21. When the loop over the files of a publication returns normally,
    the list of attachments and the side buffer go together: for some of
    the files, taken in order, each with the path it was resolved to, the
    list has grown by their identifiers and the buffer by their attachment
    fragments. *)
Theorem links_and_fragments_correspond self files indent buf0 atts0 w w' buf
    atts :
  output_files self files indent buf0 atts0 w = (w', Ok (buf, atts)) ->
  exists resolved : list (File.t * string),
    sublist (map fst resolved) files
    /\ atts = atts0 ++ map (fun r => File.uuid (fst r)) resolved
    /\ buf
       = buf0
         +:+ concat_text (fun r => attachment_fragment indent (fst r) (snd r))
               resolved.
Proof.
  revert buf0 atts0 w. induction files as [|f files IH]; intros buf0 atts0 w H.
  - injection H as _ <- <-. exists []. simpl.
    by rewrite app_nil_r, append_nil_r.
  - cbn [output_files] in H.
    apply bind_inv_ok in H as (w1 & [buf1 ok] & Hf & H).
    apply IH in H as (resolved & Hsub & -> & ->).
    apply output_file_result in Hf as [[-> ->]|[-> [path ->]]].
    + exists resolved. split; [by apply sublist_cons | done].
    + exists ((f, path) :: resolved). cbn [map fst snd concat_text].
      split; [by apply sublist_skip|].
      split; [by rewrite <- app_assoc | by rewrite append_assoc].
Qed.

(** A run of the theorem: a missing file and a file that exists. *)
Lemma links_and_fragments_correspond_witness :
  exists resolved : list (File.t * string),
    sublist (map fst resolved) [missing_pdf; annotated_pdf None]
    /\ ["f:1"] = [] ++ map (fun r => File.uuid (fst r)) resolved
    /\ EmptyString +:+ attachment_fragment 1 (annotated_pdf None) "/lib/a.pdf"
       = EmptyString
         +:+ concat_text (fun r => attachment_fragment 1 (fst r) (snd r))
               resolved.
Proof.
  apply (links_and_fragments_correspond Exporter_init
           [missing_pdf; annotated_pdf None] 1 EmptyString [] empty_world
           empty_world).
  reflexivity.
Defined.

(** * Embedded containers *)

Lemma bind_raises_after {A B} (m : M A) (k : A -> M B) w :
  (forall a w1, exists e w', k a w1 = (w', Raise e)) ->
  exists e w', bind m k w = (w', Raise e).
Proof.
  intros Hk. unfold bind. destruct (m w) as [w1 [a|e]]; [apply Hk | eauto].
Qed.

Lemma bind_raises_now {A B} (m : M A) (k : A -> M B) w :
  (exists e w', m w = (w', Raise e)) ->
  exists e w', bind m k w = (w', Raise e).
Proof.
  intros (e & w' & H). exists e, w'. by erewrite bind_raise.
Qed.

(** X22. With [embed_container] on, a container whose type is not a key of
    [ZTYPE] aborts the serialization of the publication it contains:
    [output_paper] raises, whatever the type of the publication itself. *)
Theorem unknown_container_type_aborts self p c indent w :
  embed_container self = true ->
  Publication.container p = Some c ->
  ZTYPE !! Publication.type c = None ->
  exists e w', output_paper self p indent w = (w', Raise e).
Proof.
  intros Hec Hc Hz. rewrite output_paper_unfold. unfold output_paper_body.
  rewrite Hc, Hec. cbv beta iota.
  apply bind_raises_after. intros [appendout attachments] w1.
  do 13 (apply bind_raises_after; intros ? ?).
  apply bind_raises_now, bind_raises_after. intros ? ?.
  apply bind_raises_now. by apply output_paper_unknown_type.
Qed.

(** A run of the theorem: a chapter of the leaflet. *)
Lemma unknown_container_type_aborts_witness :
  exists e w',
    output_paper Exporter_init chapter_of_leaflet 1 empty_world
    = (w', Raise e).
Proof.
  apply (unknown_container_type_aborts Exporter_init chapter_of_leaflet
           leaflet 1 empty_world);
    reflexivity.
Defined.

Lemma nests_bind {A} (m : M A) k P :
  extends m -> (forall a, nests (k a) P) -> nests (bind m k) P.
Proof.
  intros Hm Hk w w' H. apply bind_inv_ok in H as (w1 & a & H1 & H2).
  destruct (Hm w) as [x Hx]. rewrite H1 in Hx. simpl in Hx.
  destruct (Hk a w1 w' H2) as (pre & mid & post & E & HP).
  exists (x +:+ pre), mid, post. split; [|done].
  by rewrite E, Hx, !append_assoc.
Qed.

Lemma nests_here (m k : M unit) (P : string -> Prop) :
  (forall w w', m w = (w', Ok tt) ->
     exists mid, out w' = out w +:+ mid /\ P mid) ->
  extends k -> nests (m ;; k) P.
Proof.
  intros Hm Hk w w' H. apply bind_inv_ok in H as (w1 & [] & H1 & H2).
  destruct (Hm w w1 H1) as (mid & E & HP).
  destruct (Hk w1) as [post Hpost]. rewrite H2 in Hpost. simpl in Hpost.
  exists EmptyString, mid, post. split; [|done].
  by rewrite Hpost, E, !append_assoc.
Qed.

(** X23. With [embed_container] on, the fragment of a serialized
    publication that has a container holds, between the opening and the
    closing [dcterms:isPartOf] tags, what a run of [output_paper] on the
    container, two levels deeper, appends. *)
Theorem container_fragment_is_nested self p c indent w w' :
  embed_container self = true ->
  Publication.container p = Some c ->
  output_paper self p indent w = (w', Ok tt) ->
  exists pre nested post wa wb,
    output_paper self c (indent + 2) wa = (wb, Ok tt)
    /\ out wb = out wa +:+ nested
    /\ out w'
       = out w +:+ pre
         +:+ (repeat_str "  " (indent + 1) +:+ "<dcterms:isPartOf>" +:+ nl)
         +:+ nested
         +:+ (repeat_str "  " (indent + 1) +:+ "</dcterms:isPartOf>" +:+ nl)
         +:+ post.
Proof.
  intros Hec Hc Hrun.
  enough (nests (output_paper self p indent)
            (fun mid => exists nested wa wb,
               output_paper self c (indent + 2) wa = (wb, Ok tt)
               /\ out wb = out wa +:+ nested
               /\ mid
                  = (repeat_str "  " (indent + 1) +:+ "<dcterms:isPartOf>"
                     +:+ nl)
                    +:+ nested
                    +:+ (repeat_str "  " (indent + 1)
                         +:+ "</dcterms:isPartOf>" +:+ nl))) as Hn.
  { destruct (Hn w w' Hrun)
      as (pre & mid & post & E & nested & wa & wb & Hc' & Hwb & ->).
    exists pre, nested, post, wa, wb. split; [done|]. split; [done|].
    by rewrite E, !append_assoc. }
  clear Hrun. rewrite output_paper_unfold. unfold output_paper_body.
  rewrite Hc, Hec. cbv beta iota.
  apply nests_bind; [extends_tac|]. intros [appendout attachments].
  do 13 (apply nests_bind; [extends_tac | intros ?]).
  apply nests_here; [|extends_tac].
  intros w0 w3 H.
  rewrite (bind_emits _ _ _ _ (emits_f_write _ _ _ _)) in H.
  apply bind_inv_ok in H as (wb & [] & Hcont & H).
  rewrite (emits_f_write _ _ _ _ wb) in H. injection H as <-.
  destruct (extends_output_paper self c (indent + 2)
              (set_out
                 (out w0
                  +:+ write EmptyString (indent + 1)
                        ("<dcterms:isPartOf>" +:+ nl) [] true) w0))
    as [nested Hnested].
  rewrite Hcont in Hnested. cbn [fst out set_out] in Hnested.
  eexists. split.
  2:{ exists nested. eexists _, wb. split; [exact Hcont|].
      split; [exact Hnested | reflexivity]. }
  cbn [out set_out]. rewrite Hnested, !write_text.
  by rewrite !append_assoc.
Qed.

(** A run of the theorem: a chapter of the handbook. *)
Lemma container_fragment_is_nested_witness :
  exists pre nested post wa wb,
    output_paper Exporter_init handbook (1 + 2) wa = (wb, Ok tt)
    /\ out wb = out wa +:+ nested
    /\ out (fst (output_paper Exporter_init chapter_of_handbook 1 empty_world))
       = out empty_world +:+ pre
         +:+ (repeat_str "  " (1 + 1) +:+ "<dcterms:isPartOf>" +:+ nl)
         +:+ nested
         +:+ (repeat_str "  " (1 + 1) +:+ "</dcterms:isPartOf>" +:+ nl)
         +:+ post.
Proof.
  apply (container_fragment_is_nested Exporter_init chapter_of_handbook
           handbook 1 empty_world).
  - reflexivity.
  - reflexivity.
  - vm_compute. reflexivity.
Defined.

(** * The Zotero manager *)

Lemma match_to_end_line k :
  contains k nl = false -> Zotero5.match_to_end k = Some k.
Proof.
  induction k as [|c k IH]; [done|].
  change nl with (String "010" EmptyString). rewrite contains_char_cons.
  intros [Hc Hk]%orb_false_elim. cbn [Zotero5.match_to_end].
  rewrite Ascii.eqb_sym, Hc. by rewrite IH.
Qed.

Lemma re_papers_uri_match_digits d ds k :
  Zotero5.is_digit d = true ->
  Zotero5.skip_digits (ds +:+ "_" +:+ k) = String "_" k ->
  Zotero5.re_papers_uri_match
    ("zotero://select/items/" +:+ String d ds +:+ "_" +:+ k)
  = Zotero5.match_to_end k.
Proof.
  intros Hd Hds. unfold Zotero5.re_papers_uri_match.
  cbn [String.append Zotero5.strip_prefix Ascii.eqb Bool.eqb].
  rewrite Hd. cbn [String.append] in Hds. by rewrite Hds.
Qed.

(** X24. The URI that [populate] gives a paper is one that
    [get_publication_by_uri] accepts, and the key it extracts is the key of
    the paper: for a key with no newline, the database is asked for exactly
    that key, one debug record is logged, and the result is the paper of
    the row found or the failure of the query. *)
Theorem populated_uri_is_looked_up_by_key
    managers_Note managers_Author managers_Paper init query_one self item :
  contains (Zotero5.local_uuid (init self)) nl = false ->
  exists u,
    Zotero5.uri (Zotero5.populate managers_Note managers_Author init self item)
      = Some u
    /\ Zotero5.get_publication_by_uri managers_Paper query_one u
       = ([(Zotero5.DEBUG, "Searching for Zotero publication with UUID %s",
            [Zotero5.local_uuid (init self)])],
          match query_one (Zotero5.local_uuid (init self)) with
          | Zotero5.Row key => inr (Some (managers_Paper key))
          | failure => inl failure
          end).
Proof.
  intros Hk. eexists. split.
  { unfold Zotero5.populate.
    destruct (if truthy _ then _ else _) as [[y m] d]. reflexivity. }
  cbn [percent Ascii.eqb Bool.eqb]. rewrite append_nil_r.
  unfold Zotero5.get_publication_by_uri.
  change (String "z" ?s)
    with ("zotero://select/items/" +:+ String "1" EmptyString +:+ "_"
          +:+ Zotero5.local_uuid (init self)).
  rewrite re_papers_uri_match_digits by done.
  rewrite match_to_end_line by done.
  by destruct (query_one _).
Qed.

(** A run of the theorem on the sample item and database. *)
Lemma populated_uri_is_looked_up_by_key_witness :
  exists u,
    Zotero5.uri
      (Zotero5.populate sample_Note sample_Author (fun p => p)
         (blank_paper "ABCD2345") sample_item)
      = Some u
    /\ Zotero5.get_publication_by_uri blank_paper sample_query u
       = ([(Zotero5.DEBUG, "Searching for Zotero publication with UUID %s",
            ["ABCD2345"])],
          match sample_query "ABCD2345" with
          | Zotero5.Row key => inr (Some (blank_paper key))
          | failure => inl failure
          end).
Proof.
  apply (populated_uri_is_looked_up_by_key sample_Note sample_Author
           blank_paper (fun p => p) sample_query (blank_paper "ABCD2345")
           sample_item).
  reflexivity.
Defined.

Lemma skip_digits_stops ds k :
  forallb Zotero5.is_digit (list_ascii_of_string ds) = true ->
  Zotero5.skip_digits (ds +:+ "_" +:+ k) = String "_" k.
Proof.
  induction ds as [|c ds IH]; [done|].
  cbn [list_ascii_of_string forallb]. intros [Hc Hds]%andb_prop.
  cbn [String.append Zotero5.skip_digits]. rewrite Hc. by apply IH.
Qed.

(** X25. [get_publication_by_uri] does not look at the number that
    precedes the underscore: two URIs that differ in that number only,
    each with one digit or more, give the same result. *)
Theorem library_number_is_ignored managers_Paper query_one d1 ds1 d2 ds2 k :
  forallb Zotero5.is_digit (list_ascii_of_string (String d1 ds1)) = true ->
  forallb Zotero5.is_digit (list_ascii_of_string (String d2 ds2)) = true ->
  snd (Zotero5.get_publication_by_uri managers_Paper query_one
         ("zotero://select/items/" +:+ String d1 ds1 +:+ "_" +:+ k))
  = snd (Zotero5.get_publication_by_uri managers_Paper query_one
           ("zotero://select/items/" +:+ String d2 ds2 +:+ "_" +:+ k)).
Proof.
  cbn [list_ascii_of_string forallb].
  intros [Hd1 Hds1]%andb_prop [Hd2 Hds2]%andb_prop.
  unfold Zotero5.get_publication_by_uri.
  rewrite !re_papers_uri_match_digits by (done || by apply skip_digits_stops).
  by destruct (Zotero5.match_to_end k) as [uriref|].
Qed.

(** A run of the theorem: libraries 1 and 42. *)
Lemma library_number_is_ignored_witness :
  snd (Zotero5.get_publication_by_uri blank_paper sample_query
         ("zotero://select/items/" +:+ String "1" EmptyString +:+ "_"
          +:+ "ABCD2345"))
  = snd (Zotero5.get_publication_by_uri blank_paper sample_query
           ("zotero://select/items/" +:+ String "4" "2" +:+ "_"
            +:+ "ABCD2345")).
Proof.
  apply (library_number_is_ignored blank_paper sample_query
           "1" EmptyString "4" "2" "ABCD2345");
    reflexivity.
Defined.




